(** * spend-breakdown-api: the response-validation and repair pipeline

    A shallow embedding of [src/services/claudeService.js],
    [src/routes/categorize.js], [src/routes/categorizePdf.js] and of the
    older copy of the service kept in the repository, followed by the
    properties the specification states about them.

    Conventions.
    - A JavaScript value is a [JS.value].  Numbers are IEEE binary64 values
      ([spec_float]); no arithmetic is ever performed on them by the service.
    - A JavaScript string is a [string]: one [ascii] stands for one code
      unit.  The service only ever compares code units with the braces of
      its regular expression and whole strings with the taxonomy labels.
    - An object is the list of its own enumerable properties in property
      order.
    - Abrupt completion ([throw]) is the [Throw] case of [JS.completion].
    - [JSON.parse] belongs to the runtime, not to the repository: the
      service is parameterised by it.  [RefParser.JSON_parse] is an
      executable instance used in the examples.
    - [console.error] calls are not modelled: nothing reads the log. *)

From Stdlib Require Import String Ascii List ZArith Lia Bool SpecFloat.
From Stdlib Require Import DecimalString.
Import ListNotations.
Local Open Scope list_scope.
Local Open Scope string_scope.
Set Warnings "-register-all".

(* ===================================================================== *)
(** ** JavaScript values and the operations the service uses             *)
(* ===================================================================== *)

Module JS.

Inductive value : Type :=
| VUndefined
| VNull
| VBool (b : bool)
| VNumber (x : spec_float)
| VString (s : string)
| VArray (elems : list value)
| VObject (props : list (string * value)).

(** What can be thrown: errors of the runtime and [new Error(msg)]. *)
Inductive exn : Type :=
| TypeError (msg : string)
| SyntaxError (msg : string)
| Error (msg : string).

Definition message (e : exn) : string :=
  match e with
  | TypeError m | SyntaxError m | Error m => m
  end.

Inductive completion (A : Type) : Type :=
| Return (a : A)
| Throw (e : exn).
Arguments Return {A} a.
Arguments Throw {A} e.

Definition bind {A B} (c : completion A) (k : A -> completion B) : completion B :=
  match c with
  | Return a => k a
  | Throw e => Throw e
  end.

(** [try { body } catch (e) { handler e }] *)
Definition try_catch {A} (body : completion A) (handler : exn -> completion A)
  : completion A :=
  match body with
  | Return a => Return a
  | Throw e => handler e
  end.

Declare Scope js_scope.
Delimit Scope js_scope with js.
Notation "x <- c ;; k" := (bind c (fun x => k))
  (at level 61, c at next level, right associativity) : js_scope.

(** ToBoolean. *)
Definition truthy (v : value) : bool :=
  match v with
  | VUndefined | VNull => false
  | VBool b => b
  | VNumber (S754_zero _) | VNumber S754_nan => false
  | VNumber _ => true
  | VString s => negb (String.eqb s "")
  | VArray _ | VObject _ => true
  end.

(** [Array.isArray(v)] *)
Definition isArray (v : value) : bool :=
  match v with VArray _ => true | _ => false end.

(** [typeof v === 'number'] *)
Definition typeof_number (v : value) : bool :=
  match v with VNumber _ => true | _ => false end.

(** [typeof v === 'string'] *)
Definition typeof_string (v : value) : bool :=
  match v with VString _ => true | _ => false end.

(** Decimal spelling of an array index. *)
Definition index_key (i : nat) : string :=
  NilEmpty.string_of_uint (Nat.to_uint i).

Fixpoint indexed_from {A} (i : nat) (l : list A) : list (string * A) :=
  match l with
  | [] => []
  | x :: l' => (index_key i, x) :: indexed_from (S i) l'
  end.

Fixpoint code_units (s : string) : list value :=
  match s with
  | EmptyString => []
  | String c s' => VString (String c EmptyString) :: code_units s'
  end.

(** The own enumerable properties of a value, in property order: what an
    object spread [{...v}] copies.  Primitives other than strings have
    none; nothing is copied from [null] or [undefined] either. *)
Definition ownProps (v : value) : list (string * value) :=
  match v with
  | VObject props => props
  | VArray elems => indexed_from 0 elems
  | VString s => indexed_from 0 (code_units s)
  | _ => []
  end.

Fixpoint lookup (k : string) (props : list (string * value)) : option value :=
  match props with
  | [] => None
  | (k', v) :: rest => if String.eqb k k' then Some v else lookup k rest
  end.

(** Defining the named property [k]: an existing property keeps its
    place and takes the new value, a new one goes last.  ([k] is never an
    array index in the service: it is one of [categories], [insights],
    [category].) *)
Fixpoint setProp (k : string) (v : value) (props : list (string * value))
  : list (string * value) :=
  match props with
  | [] => [(k, v)]
  | (k', v') :: rest =>
      if String.eqb k k' then (k, v) :: rest else (k', v') :: setProp k v rest
  end.

Definition describe_nullish (v : value) : string :=
  match v with VNull => "null" | _ => "undefined" end.

(** [v.k] for a property name [k] that the built-in prototypes do not
    define (the service reads [categories], [insights], [category],
    [description], [amount], [date], [transactions]; [length] and [map]
    are [array_length] and [callMap] below). *)
Definition getProp (v : value) (k : string) : completion value :=
  match v with
  | VUndefined | VNull =>
      Throw (TypeError ("Cannot read properties of " ++ describe_nullish v
                          ++ " (reading '" ++ k ++ "')"))
  | _ => Return (match lookup k (ownProps v) with
                 | Some x => x
                 | None => VUndefined
                 end)
  end.

(** [obj.k = v] on the object held in a variable; the completion carries
    the updated object.  Strict mode (the files are ES modules): assigning
    to a property of a primitive throws.  An array with a named property
    has no counterpart in [value]; the service never assigns to one
    ([validateCategories] has thrown before), and that case throws here. *)
Definition assign (obj : value) (k : string) (v : value) : completion value :=
  match obj with
  | VObject props => Return (VObject (setProp k v props))
  | VUndefined | VNull =>
      Throw (TypeError ("Cannot set properties of " ++ describe_nullish obj
                          ++ " (setting '" ++ k ++ "')"))
  | _ => Throw (TypeError ("Cannot create property '" ++ k ++ "'"))
  end.

(** [xs.length] of an array (read by the service only behind
    [Array.isArray]). *)
Definition array_length (v : value) : nat :=
  match v with VArray elems => List.length elems | _ => 0 end.

Fixpoint mapM {A B} (f : A -> completion B) (l : list A) : completion (list B) :=
  match l with
  | [] => Return []
  | x :: l' =>
      match f x with
      | Throw e => Throw e
      | Return y =>
          match mapM f l' with
          | Throw e => Throw e
          | Return ys => Return (y :: ys)
          end
      end
  end.

(** [xs.map(f)] where [expr] is the source text of [xs] (V8 quotes it in
    its message).  Elements are visited left to right and the first throw
    ends the traversal. *)
Definition callMap (expr : string) (xs : value) (f : value -> completion value)
  : completion (list value) :=
  match xs with
  | VArray elems => mapM f elems
  | VUndefined | VNull =>
      Throw (TypeError ("Cannot read properties of " ++ describe_nullish xs
                          ++ " (reading 'map')"))
  | _ => Throw (TypeError (expr ++ ".map is not a function"))
  end.

(** SameValueZero between a string and a value. *)
Definition sameValueZero_string (s : string) (v : value) : bool :=
  match v with
  | VString s' => String.eqb s s'
  | _ => false
  end.

(** [labels.includes(v)] for an array of strings. *)
Definition array_includes (labels : list string) (v : value) : bool :=
  existsb (fun l => sameValueZero_string l v) labels.

(** [s.startsWith(t)] *)
Fixpoint startsWith (s t : string) : bool :=
  match t with
  | EmptyString => true
  | String c t' =>
      match s with
      | EmptyString => false
      | String d s' => Ascii.eqb c d && startsWith s' t'
      end
  end.

(** [s.includes(t)] *)
Fixpoint includes (s t : string) : bool :=
  startsWith s t ||
  match s with
  | EmptyString => false
  | String _ s' => includes s' t
  end.

(** [x || y] on strings. *)
Definition string_or (x y : string) : string :=
  if String.eqb x "" then y else x.

End JS.
Import JS.
Local Open Scope js_scope.

(* ===================================================================== *)
(** ** The regular expression of the extractor                           *)
(* ===================================================================== *)

Module Regex.

(** The fragment of regular expressions the service uses: a literal code
    unit, and a greedy [[\s\S]*]. *)
Inductive atom : Type :=
| Lit (c : ascii)
| AnyStar.

Definition regex := list atom.

(** Backtracking match of [r] at the start of [s]; returns the matched
    prefix.  [AnyStar] first takes as much as it can and gives code units
    back one at a time until the rest of the pattern matches. *)
Fixpoint match_here (r : regex) : string -> option string :=
  match r with
  | [] => fun _ => Some EmptyString
  | Lit c :: r' => fun s =>
      match s with
      | EmptyString => None
      | String d s' =>
          if Ascii.eqb c d then option_map (String d) (match_here r' s')
          else None
      end
  | AnyStar :: r' =>
      fix star (s : string) : option string :=
        match s with
        | EmptyString => match_here r' EmptyString
        | String d s' =>
            match star s' with
            | Some m => Some (String d m)
            | None => match_here r' s
            end
        end
  end.

(** [s.match(r)[0]] for a regex without the global flag: the match at
    the leftmost position where one exists; [None] is [null]. *)
Fixpoint exec (r : regex) (s : string) : option string :=
  match match_here r s with
  | Some m => Some m
  | None =>
      match s with
      | EmptyString => None
      | String _ s' => exec r s'
      end
  end.

(** [/^[...]+$/.test(s)] for a character class [cls]. *)
Fixpoint all_in_class (cls : ascii -> bool) (s : string) : bool :=
  match s with
  | EmptyString => true
  | String c s' => cls c && all_in_class cls s'
  end.

Definition test_class_plus (cls : ascii -> bool) (s : string) : bool :=
  negb (String.eqb s "") && all_in_class cls s.

End Regex.

(* ===================================================================== *)
(** ** What the service and the routes exchange with the outside         *)
(* ===================================================================== *)

(** The single outbound call of a request, [anthropic.messages.create].
    The prompt is a fixed template around the taxonomy (and, in text mode,
    [JSON.stringify(transactions, null, 2)]); its wording is not modelled.
    What varies is kept: the output budget and the payload. *)
Inductive payload : Type :=
| TextPrompt (transactions : value)
| DocumentPrompt (pdfBase64 : string).

Record model_request : Type := {
  max_tokens : N;
  content : payload
}.

(** How the awaited call settles: [message.content[0].text], or the
    message of the error the client throws. *)
Inductive provider_outcome : Type :=
| Resolved (responseText : string)
| Rejected (cause : string).

(** An [async] function that awaits the provider at most once. *)
Inductive async (A : Type) : Type :=
| Done (a : A)
| AwaitModel (req : model_request) (resume : provider_outcome -> A).
Arguments Done {A} a.
Arguments AwaitModel {A} req resume.

(** Settling the awaited call, if there is one. *)
Definition settle {A} (p : async A) (o : provider_outcome) : A :=
  match p with
  | Done a => a
  | AwaitModel _ resume => resume o
  end.

Definition calls_model {A} (p : async A) : bool :=
  match p with Done _ => false | AwaitModel _ _ => true end.

(** [k (await p)] *)
Definition await {A B} (p : async A) (k : A -> B) : async B :=
  match p with
  | Done a => Done (k a)
  | AwaitModel req resume => AwaitModel req (fun o => k (resume o))
  end.

(** [res.status(n).json(body)] *)
Record response : Type := {
  status : nat;
  body : value
}.

(* ===================================================================== *)
(** ** src/services/claudeService.js                                     *)
(* ===================================================================== *)

Module Service.

(** 17 categories as per spec *)
Definition VALID_CATEGORIES : list string :=
  [ "Groceries";
    "Dining & Takeout";
    "Transport";
    "Housing";
    "Utilities";
    "Banking & Fees";
    "Insurance";
    "Subscriptions";
    "Shopping";
    "Travel";
    "Healthcare";
    "Entertainment";
    "Education";
    "Pets";
    "Income";
    "Refunds";
    "Other" ].

(** [/\{[\s\S]*\}/] *)
Definition JSON_REGION : Regex.regex :=
  [Regex.Lit "{"%char; Regex.AnyStar; Regex.Lit "}"%char].

Definition TEXT_FALLBACK_INSIGHTS : list value :=
  [ VString "Unable to generate AI insights at this time";
    VString "Your transactions have been categorized with default categories";
    VString "Please try uploading again for AI-powered categorization" ].

Definition PDF_FALLBACK_INSIGHTS : list value :=
  [ VString "Unable to extract transactions from PDF at this time";
    VString "Please ensure your PDF is a valid bank statement";
    VString "Try uploading a CSV file instead for better results" ].

Definition GENERIC_INSIGHTS : list value :=
  [ VString "Upload more months to see personalized spending insights";
    VString "Track your largest expense categories to identify savings opportunities";
    VString "Set a savings goal to reduce spending in specific categories" ].

(** [t => ({description: t.description, amount: t.amount, date: t.date,
            category: 'Other'})] *)
Definition echoAsOther (t : value) : completion value :=
  d <- getProp t "description" ;;
  a <- getProp t "amount" ;;
  dt <- getProp t "date" ;;
  Return (VObject [ ("description", d); ("amount", a); ("date", dt);
                    ("category", VString "Other") ]).

(** [cat => ({...cat, category:
       VALID_CATEGORIES.includes(cat.category) ? cat.category : 'Other'})] *)
Definition repairCategory (cat : value) : completion value :=
  c <- getProp cat "category" ;;
  Return (VObject (setProp "category"
                     (if array_includes VALID_CATEGORIES c then c
                      else VString "Other")
                     (ownProps cat))).

(** "Validate and fallback invalid categories":
    [result.categories = result.categories.map(...)] *)
Definition validateCategories (result : value) : completion value :=
  cats <- getProp result "categories" ;;
  mapped <- callMap "result.categories" cats repairCategory ;;
  assign result "categories" (VArray mapped).

(** "Ensure we have insights" *)
Definition ensureInsights (result : value) : completion value :=
  insights <- getProp result "insights" ;;
  if negb (truthy insights) || negb (isArray insights)
     || (array_length insights <? 3)%nat
  then assign result "insights" (VArray GENERIC_INSIGHTS)
  else Return result.

(** The two statements together: the Result Validator/Repairer. *)
Definition repair (result : value) : completion value :=
  result <- validateCategories result ;;
  ensureInsights result.

Section WithRuntime.

(** [JSON.parse]: [None] when it throws its [SyntaxError]. *)
Variable JSON_parse : string -> option value.

(** The body of the inner [try]: the Response Extractor. *)
Definition extractJSON (responseText : string) : completion value :=
  match Regex.exec JSON_REGION responseText with
  | None => Throw (Error "No JSON found in response")
  | Some jsonMatch =>
      match JSON_parse jsonMatch with
      | Some result => Return result
      | None => Throw (SyntaxError "JSON.parse")
      end
  end.

Definition categorizeTransactions_request (transactions : value) : model_request :=
  {| max_tokens := 4096%N; content := TextPrompt transactions |}.

(** The [try { ... } catch (error) { ... }] of [categorizeTransactions],
    from the point where the awaited call settles. *)
Definition categorizeTransactions_resume (transactions : value)
    (o : provider_outcome) : completion value :=
  try_catch
    (match o with
     | Rejected cause => Throw (Error cause)
     | Resolved responseText =>
         result <- try_catch (extractJSON responseText)
                     (fun parseError =>
                        cats <- callMap "transactions" transactions echoAsOther ;;
                        Return (VObject [ ("categories", VArray cats);
                                          ("insights", VArray TEXT_FALLBACK_INSIGHTS) ])) ;;
         repair result
     end)
    (fun error => Throw (Error ("Categorization failed: " ++ message error))).

Definition categorizeTransactions (transactions : value)
  : async (completion value) :=
  AwaitModel (categorizeTransactions_request transactions)
             (categorizeTransactions_resume transactions).

Definition categorizePdfStatement_request (pdfBase64 : string) : model_request :=
  {| max_tokens := 8192%N; content := DocumentPrompt pdfBase64 |}.

Definition categorizePdfStatement_resume (o : provider_outcome)
  : completion value :=
  try_catch
    (match o with
     | Rejected cause => Throw (Error cause)
     | Resolved responseText =>
         result <- try_catch (extractJSON responseText)
                     (fun parseError =>
                        Return (VObject [ ("categories", VArray []);
                                          ("insights", VArray PDF_FALLBACK_INSIGHTS) ])) ;;
         repair result
     end)
    (fun error =>
       if includes (message error) "invalid_pdf"
       then Throw (Error "Invalid PDF file. Please upload a valid bank statement PDF.")
       else Throw (Error ("PDF processing failed: " ++ message error))).

Definition categorizePdfStatement (pdfBase64 : string)
  : async (completion value) :=
  AwaitModel (categorizePdfStatement_request pdfBase64)
             categorizePdfStatement_resume.

End WithRuntime.

End Service.

(* ===================================================================== *)
(** ** The older copy of the service (src/unnamed/part_000)              *)
(* ===================================================================== *)

(** No route imports this file.  Its taxonomy and its two repair
    statements are the same text as in [claudeService.js]; what differs
    is that extraction is not wrapped in a [try] of its own. *)
Module Legacy.

Section WithRuntime.

Variable JSON_parse : string -> option value.

Definition categorizeTransactions_resume (transactions : value)
    (o : provider_outcome) : completion value :=
  try_catch
    (match o with
     | Rejected cause => Throw (Error cause)
     | Resolved responseText =>
         match Regex.exec Service.JSON_REGION responseText with
         | None => Throw (Error "Failed to parse Claude response as JSON")
         | Some jsonMatch =>
             result <- match JSON_parse jsonMatch with
                       | Some result => Return result
                       | None => Throw (SyntaxError "JSON.parse")
                       end ;;
             Service.repair result
         end
     end)
    (fun error => Throw (Error ("Categorization failed: " ++ message error))).

Definition categorizeTransactions (transactions : value)
  : async (completion value) :=
  AwaitModel {| max_tokens := 4096%N; content := TextPrompt transactions |}
             (categorizeTransactions_resume transactions).

End WithRuntime.

End Legacy.

(* ===================================================================== *)
(** ** src/routes/categorize.js and src/routes/categorizePdf.js          *)
(* ===================================================================== *)

Module Routes.

(** [const { k } = source] *)
Definition destructure (source : string) (v : value) (k : string)
  : completion value :=
  match v with
  | VUndefined | VNull =>
      Throw (TypeError ("Cannot destructure property '" ++ k ++ "' of '"
                          ++ source ++ "' as it is " ++ describe_nullish v ++ "."))
  | _ => getProp v k
  end.

(** [res.status(400).json({error: 'Invalid request', message})] *)
Definition invalid_request (msg : string) : response :=
  {| status := 400;
     body := VObject [ ("error", VString "Invalid request");
                       ("message", VString msg) ] |}.

(** [res.status(500).json({error: label,
      message: error.message || 'An unexpected error occurred'})] *)
Definition server_error (label : string) (e : exn) : response :=
  {| status := 500;
     body := VObject [ ("error", VString label);
                       ("message",
                        VString (string_or (message e)
                                   "An unexpected error occurred")) ] |}.

(** [res.json(result)] *)
Definition ok (result : value) : response :=
  {| status := 200; body := result |}.

Definition array_elements (v : value) : list value :=
  match v with VArray elems => elems | _ => [] end.

(** "Validate each transaction has required fields": the [for ... of]
    loop; [Some r] is an early [return res.status(400)...]. *)
Fixpoint checkEach (ts : list value) : completion (option response) :=
  match ts with
  | [] => Return None
  | transaction :: rest =>
      description <- getProp transaction "description" ;;
      if negb (truthy description)
      then Return (Some (invalid_request
             "Each transaction must have description (string) and amount (number)"))
      else
        amount <- getProp transaction "amount" ;;
        if negb (typeof_number amount)
        then Return (Some (invalid_request
               "Each transaction must have description (string) and amount (number)"))
        else checkEach rest
  end.

(** The "Validation" block of the text route. *)
Definition validateTransactions (transactions : value)
  : completion (option response) :=
  if negb (truthy transactions) || negb (isArray transactions)
  then Return (Some (invalid_request "transactions array is required"))
  else if (array_length transactions =? 0)%nat
  then Return (Some (invalid_request "transactions array cannot be empty"))
  else if (1000 <? N.of_nat (array_length transactions))%N
  then Return (Some (invalid_request
         "Maximum 1000 transactions allowed per request"))
  else checkEach (array_elements transactions).

(** [[A-Za-z0-9+/=]] *)
Definition base64_class (c : ascii) : bool :=
  let n := N_of_ascii c in
  ((65 <=? n) && (n <=? 90) || (97 <=? n) && (n <=? 122)
   || (48 <=? n) && (n <=? 57)
   || (n =? 43) || (n =? 47) || (n =? 61))%N.

(** The "Validation" block of the document route: [inl] is an early
    [return res.status(400)...], [inr] the string that goes on to the
    service.  ([!pdf || typeof pdf !== 'string'] holds of everything but a
    non-empty string.) *)
Definition validatePdf (pdf : value) : response + string :=
  match pdf with
  | VString s =>
      if negb (truthy pdf)
      then inl (invalid_request "pdf (base64 string) is required")
      else if negb (Regex.test_class_plus base64_class s)
      then inl (invalid_request "pdf must be a valid base64 encoded string")
      else inr s
  | _ => inl (invalid_request "pdf (base64 string) is required")
  end.

Section WithRuntime.

Variable JSON_parse : string -> option value.

(** [router.post('/', async (req, res) => { ... })] of categorize.js,
    as a function of [req.body]. *)
Definition categorize (reqBody : value) : async response :=
  match (transactions <- destructure "req.body" reqBody "transactions" ;;
         early <- validateTransactions transactions ;;
         Return (transactions, early)) with
  | Throw error => Done (server_error "Categorization failed" error)
  | Return (_, Some rejected) => Done rejected
  | Return (transactions, None) =>
      await (Service.categorizeTransactions JSON_parse transactions)
        (fun c => match c with
                  | Return result => ok result
                  | Throw error => server_error "Categorization failed" error
                  end)
  end.

(** [router.post('/', async (req, res) => { ... })] of categorizePdf.js. *)
Definition categorizePdf (reqBody : value) : async response :=
  match destructure "req.body" reqBody "pdf" with
  | Throw error => Done (server_error "PDF categorization failed" error)
  | Return pdf =>
      match validatePdf pdf with
      | inl rejected => Done rejected
      | inr pdfBase64 =>
          await (Service.categorizePdfStatement JSON_parse pdfBase64)
            (fun c => match c with
                      | Return result => ok result
                      | Throw error =>
                          server_error "PDF categorization failed" error
                      end)
      end
  end.

End WithRuntime.

End Routes.

(* ===================================================================== *)
(** ** An executable [JSON.parse]                                        *)
(* ===================================================================== *)

(** A recursive-descent reading of the JSON grammar, producing what
    [JSON.parse] produces: numbers rounded to the nearest binary64 (ties
    to even), a repeated key keeping its first place with its last value,
    array-index keys ahead of the others in ascending order.  One
    restriction follows from the string model: an escape [\uXXXX] above
    [ÿ] has no [ascii] and is refused.  The service is stated for an
    arbitrary parser; this one instantiates it in the examples. *)
Module RefParser.

Definition is_ws (c : ascii) : bool :=
  let n := N_of_ascii c in
  ((n =? 32) || (n =? 9) || (n =? 10) || (n =? 13))%N.

Fixpoint skip_ws (s : string) : string :=
  match s with
  | String c s' => if is_ws c then skip_ws s' else s
  | EmptyString => s
  end.

Definition digit_of (c : ascii) : option Z :=
  let n := N_of_ascii c in
  if ((48 <=? n) && (n <=? 57))%N then Some (Z.of_N n - 48)%Z else None.

Definition hex_of (c : ascii) : option N :=
  let n := N_of_ascii c in
  if ((48 <=? n) && (n <=? 57))%N then Some (n - 48)%N
  else if ((65 <=? n) && (n <=? 70))%N then Some (n - 55)%N
  else if ((97 <=? n) && (n <=? 102))%N then Some (n - 87)%N
  else None.

(** A maximal run of decimal digits: its value, its length, the rest. *)
Fixpoint read_digits (acc : Z) (count : nat) (s : string) : Z * nat * string :=
  match s with
  | String c s' =>
      match digit_of c with
      | Some d => read_digits (10 * acc + d)%Z (S count) s'
      | None => (acc, count, s)
      end
  | EmptyString => (acc, count, s)
  end.

(** The binary64 nearest to [(-1)^neg * m * 10^e]. *)
Definition to_binary64 (neg : bool) (m : Z) (e : Z) : spec_float :=
  match m with
  | Zpos p =>
      if (0 <=? e)%Z
      then binary_normalize 53 1024
             (if neg then - (m * 10 ^ e) else m * 10 ^ e)%Z 0 false
      else
        match (10 ^ (- e))%Z with
        | Zpos d => SFdiv 53 1024 (S754_finite neg p 0) (S754_finite false d 0)
        | _ => S754_nan
        end
  | _ => S754_zero neg
  end.

(** [-? int frac? exp?] *)
Definition parse_number (s : string) : option (spec_float * string) :=
  let '(neg, s1) :=
    match s with
    | String c r => if Ascii.eqb c "-" then (true, r) else (false, s)
    | EmptyString => (false, s)
    end in
  let int_part :=
    match s1 with
    | String c r =>
        if Ascii.eqb c "0" then Some (0%Z, r)
        else match digit_of c with
             | Some _ => let '(m, _, r') := read_digits 0 0 s1 in Some (m, r')
             | None => None
             end
    | EmptyString => None
    end in
  match int_part with
  | None => None
  | Some (m, s2) =>
      let frac_part :=
        match s2 with
        | String c r =>
            if Ascii.eqb c "."
            then let '(m', n, r') := read_digits m 0 r in
                 match n with O => None | _ => Some (m', Z.of_nat n, r') end
            else Some (m, 0%Z, s2)
        | EmptyString => Some (m, 0%Z, s2)
        end in
      match frac_part with
      | None => None
      | Some (m', scale, s3) =>
          let exp_part :=
            match s3 with
            | String c r =>
                if Ascii.eqb c "e" || Ascii.eqb c "E"
                then
                  let '(eneg, r1) :=
                    match r with
                    | String c' r' =>
                        if Ascii.eqb c' "-" then (true, r')
                        else if Ascii.eqb c' "+" then (false, r')
                        else (false, r)
                    | EmptyString => (false, r)
                    end in
                  let '(x, n, r2) := read_digits 0 0 r1 in
                  match n with
                  | O => None
                  | _ => Some ((if eneg then - x else x)%Z, r2)
                  end
                else Some (0%Z, s3)
            | EmptyString => Some (0%Z, s3)
            end in
          match exp_part with
          | None => None
          | Some (x, s4) => Some (to_binary64 neg m' (x - scale), s4)
          end
      end
  end.

Definition dquote : ascii := ascii_of_nat 34.
Definition backslash : ascii := ascii_of_nat 92.

(** The characters of a string literal after its opening quote. *)
Fixpoint parse_string_body (s : string) : option (string * string) :=
  match s with
  | EmptyString => None
  | String c r =>
      if Ascii.eqb c dquote then Some (EmptyString, r)
      else if Ascii.eqb c backslash then
        match r with
        | String e r1 =>
            let simple (u : ascii) :=
              option_map (fun '(str, rest) => (String u str, rest))
                         (parse_string_body r1) in
            if Ascii.eqb e dquote then simple dquote
            else if Ascii.eqb e backslash then simple backslash
            else if Ascii.eqb e "/" then simple "/"%char
            else if Ascii.eqb e "b" then simple (ascii_of_nat 8)
            else if Ascii.eqb e "f" then simple (ascii_of_nat 12)
            else if Ascii.eqb e "n" then simple (ascii_of_nat 10)
            else if Ascii.eqb e "r" then simple (ascii_of_nat 13)
            else if Ascii.eqb e "t" then simple (ascii_of_nat 9)
            else if Ascii.eqb e "u" then
              match r1 with
              | String h1 (String h2 (String h3 (String h4 r2))) =>
                  match hex_of h1, hex_of h2, hex_of h3, hex_of h4 with
                  | Some a, Some b, Some c', Some d =>
                      let u := (((a * 16 + b) * 16 + c') * 16 + d)%N in
                      if (u <? 256)%N
                      then option_map
                             (fun '(str, rest) => (String (ascii_of_N u) str, rest))
                             (parse_string_body r2)
                      else None
                  | _, _, _, _ => None
                  end
              | _ => None
              end
            else None
        | EmptyString => None
        end
      else if (N_of_ascii c <? 32)%N then None
      else option_map (fun '(str, rest) => (String c str, rest))
                      (parse_string_body r)
  end.

(** The number a canonical array-index key spells ([0 .. 2^32 - 2]). *)
Definition array_index (k : string) : option N :=
  match k with
  | EmptyString => None
  | String c r =>
      match read_digits 0 0 k with
      | (n, _, EmptyString) =>
          if (Ascii.eqb c "0" && negb (String.eqb r "")) then None
          else if (n <? 4294967295)%Z then Some (Z.to_N n) else None
      | _ => None
      end
  end.

Fixpoint insert_index (i : N) (k : string) (v : value)
    (props : list (string * value)) : list (string * value) :=
  match props with
  | [] => [(k, v)]
  | (k', v') :: rest =>
      match array_index k' with
      | Some j => if (i <? j)%N then (k, v) :: props
                  else (k', v') :: insert_index i k v rest
      | None => (k, v) :: props
      end
  end.

(** CreateDataProperty on the object being built. *)
Definition define (k : string) (v : value) (props : list (string * value))
  : list (string * value) :=
  match lookup k props, array_index k with
  | None, Some i => insert_index i k v props
  | _, _ => setProp k v props
  end.

Fixpoint parse_value (fuel : nat) (s : string) {struct fuel}
  : option (value * string) :=
  match fuel with
  | O => None
  | S fuel' =>
      match skip_ws s with
      | EmptyString => None
      | String c r as s0 =>
          if Ascii.eqb c "{" then
            match skip_ws r with
            | String c' r' as r0 =>
                if Ascii.eqb c' "}" then Some (VObject [], r')
                else parse_members fuel' [] r0
            | EmptyString => None
            end
          else if Ascii.eqb c "[" then
            match skip_ws r with
            | String c' r' as r0 =>
                if Ascii.eqb c' "]" then Some (VArray [], r')
                else parse_elements fuel' [] r0
            | EmptyString => None
            end
          else if Ascii.eqb c dquote then
            option_map (fun '(str, rest) => (VString str, rest))
                       (parse_string_body r)
          else if startsWith s0 "true" then
            Some (VBool true, string_of_list_ascii (skipn 4 (list_ascii_of_string s0)))
          else if startsWith s0 "false" then
            Some (VBool false, string_of_list_ascii (skipn 5 (list_ascii_of_string s0)))
          else if startsWith s0 "null" then
            Some (VNull, string_of_list_ascii (skipn 4 (list_ascii_of_string s0)))
          else
            option_map (fun '(x, rest) => (VNumber x, rest)) (parse_number s0)
      end
  end

with parse_elements (fuel : nat) (acc : list value) (s : string) {struct fuel}
  : option (value * string) :=
  match fuel with
  | O => None
  | S fuel' =>
      match parse_value fuel' s with
      | None => None
      | Some (v, r) =>
          match skip_ws r with
          | String c r' =>
              if Ascii.eqb c "," then parse_elements fuel' (v :: acc) r'
              else if Ascii.eqb c "]" then Some (VArray (rev (v :: acc)), r')
              else None
          | EmptyString => None
          end
      end
  end

with parse_members (fuel : nat) (acc : list (string * value)) (s : string)
    {struct fuel} : option (value * string) :=
  match fuel with
  | O => None
  | S fuel' =>
      match skip_ws s with
      | String q r =>
          if Ascii.eqb q dquote then
            match parse_string_body r with
            | None => None
            | Some (k, r1) =>
                match skip_ws r1 with
                | String c r2 =>
                    if Ascii.eqb c ":" then
                      match parse_value fuel' r2 with
                      | None => None
                      | Some (v, r3) =>
                          match skip_ws r3 with
                          | String c' r4 =>
                              if Ascii.eqb c' ","
                              then parse_members fuel' (define k v acc) r4
                              else if Ascii.eqb c' "}"
                              then Some (VObject (define k v acc), r4)
                              else None
                          | EmptyString => None
                          end
                      end
                    else None
                | EmptyString => None
                end
            end
          else None
      | EmptyString => None
      end
  end.

(** [JSON.parse(text)]; [None] is the thrown [SyntaxError]. *)
Definition JSON_parse (text : string) : option value :=
  match parse_value (S (String.length text)) text with
  | Some (v, rest) =>
      match skip_ws rest with
      | EmptyString => Some v
      | _ => None
      end
  | None => None
  end.

(** Writing JSON text in this file: [q s] is [s] between double quotes. *)
Definition q (s : string) : string :=
  String dquote s ++ String dquote EmptyString.

End RefParser.

(* ===================================================================== *)
(** ** The words of the specification, as definitions                    *)
(* ===================================================================== *)

Module Spec.

(** Position of the first [c] in [s]. *)
Fixpoint indexOf (c : ascii) (s : string) : option nat :=
  match s with
  | EmptyString => None
  | String d s' =>
      if Ascii.eqb c d then Some 0 else option_map S (indexOf c s')
  end.

(** Position of the last [c] in [s]. *)
Fixpoint lastIndexOf (c : ascii) (s : string) : option nat :=
  match s with
  | EmptyString => None
  | String d s' =>
      match lastIndexOf c s' with
      | Some j => Some (S j)
      | None => if Ascii.eqb c d then Some 0 else None
      end
  end.

(** "locate the first [{] and the last [}] in the text (greedy match
    spanning the largest bracketed region)": the substring between them,
    both included, when the last [}] comes after the first [{]. *)
Definition bracketed_region (text : string) : option string :=
  match indexOf "{" text, lastIndexOf "}" text with
  | Some i, Some j =>
      if (i <? j)%nat then Some (substring i (j - i + 1) text) else None
  | _, _ => None
  end.

(** "no JSON object can be located or the located substring does not
    parse" *)
Definition extraction_fails (JSON_parse : string -> option value)
    (text : string) : Prop :=
  bracketed_region text = None \/
  exists region, bracketed_region text = Some region /\ JSON_parse region = None.

(** The value of a field, [undefined] when the field is absent. *)
Definition field (v : value) (k : string) : value :=
  match lookup k (ownProps v) with
  | Some x => x
  | None => VUndefined
  end.

Definition nullish (v : value) : bool :=
  match v with VUndefined | VNull => true | _ => false end.

(** Membership of a label in the taxonomy, exact and case-sensitive. *)
Definition in_taxonomy (label : string) : bool :=
  existsb (String.eqb label) Service.VALID_CATEGORIES.

(** "keeps the category if it is an exact case-sensitive member of the
    taxonomy and replaces it with Other otherwise" *)
Definition repaired_label (category : value) : string :=
  match category with
  | VString label => if in_taxonomy label then label else "Other"
  | _ => "Other"
  end.

(** An element whose [category] is a member of the taxonomy. *)
Definition categorized (element : value) : bool :=
  match element with
  | VObject props =>
      match lookup "category" props with
      | Some (VString label) => in_taxonomy label
      | _ => false
      end
  | _ => false
  end.

(** The [categories] of a parsed result, when the field is a sequence. *)
Definition categories_of (result : value) : option (list value) :=
  match result with
  | VObject props =>
      match lookup "categories" props with
      | Some (VArray cats) => Some cats
      | _ => None
      end
  | _ => None
  end.

(** The [insights] of a result, when the field is a sequence. *)
Definition insights_of (result : value) : option (list value) :=
  match result with
  | VObject props =>
      match lookup "insights" props with
      | Some (VArray insights) => Some insights
      | _ => None
      end
  | _ => None
  end.

(** "already valid (every category an exact taxonomy member, insights an
    array of length at least 3)" *)
Definition valid_result (result : value) : bool :=
  match categories_of result, insights_of result with
  | Some cats, Some insights =>
      forallb categorized cats && (3 <=? List.length insights)%nat
  | _, _ => false
  end.

(** "insights is missing, not a sequence, or has fewer than 3 elements" *)
Definition insights_deficient (result : value) : bool :=
  match insights_of result with
  | Some insights => (List.length insights <? 3)%nat
  | None => true
  end.

(** The fields of an element other than [category], in order. *)
Definition other_fields (props : list (string * value)) : list (string * value) :=
  filter (fun p => negb (String.eqb (fst p) "category")) props.

(** "echoes every input transaction with category Other" *)
Definition echoed (t : value) : value :=
  VObject [ ("description", field t "description");
            ("amount", field t "amount");
            ("date", field t "date");
            ("category", VString "Other") ].

Definition text_fallback (transactions : list value) : value :=
  VObject [ ("categories", VArray (map echoed transactions));
            ("insights", VArray Service.TEXT_FALLBACK_INSIGHTS) ].

Definition pdf_fallback : value :=
  VObject [ ("categories", VArray []);
            ("insights", VArray Service.PDF_FALLBACK_INSIGHTS) ].

(** The element the repair step builds from [cat]: every own field of
    [cat], with [category] set to the repaired label. *)
Definition repaired_element (cat : value) : value :=
  VObject (setProp "category"
             (VString (repaired_label (field cat "category")))
             (ownProps cat)).

(** A result with its [insights] replaced wholesale when deficient. *)
Definition with_insights (result : value) : value :=
  match result with
  | VObject props =>
      if insights_deficient result
      then VObject (setProp "insights" (VArray Service.GENERIC_INSIGHTS) props)
      else result
  | _ => result
  end.

(** What the Result Validator/Repairer returns for a parsed object whose
    [categories] are [cats]. *)
Definition repaired_result (props : list (string * value)) (cats : list value)
  : value :=
  with_insights
    (VObject (setProp "categories" (VArray (map repaired_element cats)) props)).

(** "raise an error whose message includes the underlying cause string",
    for every cause. *)
Definition surfaces_cause (run : provider_outcome -> completion value) : Prop :=
  forall cause, exists e,
    run (Rejected cause) = Throw e /\ includes (message e) cause = true.

(** A text-mode request the validation lets through: 1 to 1000 elements,
    each with a description and a numeric amount. *)
Definition well_formed_transaction (t : value) : bool :=
  truthy (field t "description") && typeof_number (field t "amount").

Definition acceptable (transactions : value) : bool :=
  match transactions with
  | VArray ts =>
      negb (List.length ts =? 0)%nat
      && (N.of_nat (List.length ts) <=? 1000)%N
      && forallb well_formed_transaction ts
  | _ => false
  end.

End Spec.
Import Spec.

(* ===================================================================== *)
(** ** Sample requests and model replies                                 *)
(* ===================================================================== *)

Module Examples.

Import RefParser.

(** [-12.5] and [1800] *)
Definition minus_12_5 : spec_float := to_binary64 true 125 (-1).
Definition plus_1800 : spec_float := to_binary64 false 1800 0.

Definition tesco : value :=
  VObject [ ("description", VString "TESCO STORES 3021");
            ("amount", VNumber minus_12_5);
            ("date", VString "2024-01-05") ].

Definition salary : value :=
  VObject [ ("description", VString "ACME PAYROLL");
            ("amount", VNumber plus_1800) ].

Definition two_transactions : list value := [tesco; salary].

(** A reply with no brace at all. *)
Definition prose : string :=
  "I am sorry, I cannot categorise these transactions.".

(** A reply whose bracketed region is not JSON. *)
Definition malformed : string :=
  "Here you go: {" ++ q "categories" ++ ": [ {" ++ q "description"
  ++ ": } and that is all.".

(** A reply whose closing brace comes before its opening brace. *)
Definition reversed : string := "} nothing here {".

(** Valid JSON inside prose, with a label outside the taxonomy, a label
    in the wrong case, and a single insight. *)
Definition reply_foodstuffs : string :=
  "Sure! {" ++ q "categories" ++ ": [{" ++ q "description" ++ ": "
  ++ q "TESCO STORES 3021" ++ ", " ++ q "amount" ++ ": -12.5, "
  ++ q "category" ++ ": " ++ q "Foodstuffs" ++ "}, {" ++ q "description"
  ++ ": " ++ q "ACME PAYROLL" ++ ", " ++ q "amount" ++ ": 1800, "
  ++ q "category" ++ ": " ++ q "income" ++ ", " ++ q "note" ++ ": true}], "
  ++ q "insights" ++ ": [" ++ q "You spent 12.50 on food" ++ "]} Bye.".

(** A reply that already satisfies the output contract. *)
Definition reply_valid : string :=
  "{" ++ q "categories" ++ ": [{" ++ q "description" ++ ": "
  ++ q "TESCO STORES 3021" ++ ", " ++ q "amount" ++ ": -12.5, "
  ++ q "category" ++ ": " ++ q "Groceries" ++ "}], "
  ++ q "insights" ++ ": [" ++ q "one" ++ ", " ++ q "two" ++ ", "
  ++ q "three" ++ ", " ++ q "four" ++ "]}".

(** Valid JSON without a [categories] field. *)
Definition reply_no_categories : string :=
  "{" ++ q "insights" ++ ": [" ++ q "one" ++ ", " ++ q "two" ++ ", "
  ++ q "three" ++ "]}".

(** Valid JSON whose [categories] is not a sequence. *)
Definition reply_categories_object : string :=
  "{" ++ q "categories" ++ ": {" ++ q "map" ++ ": 1}, "
  ++ q "insights" ++ ": []}".

Definition parsed_foodstuffs : value :=
  VObject
    [ ("categories",
       VArray
         [ VObject [ ("description", VString "TESCO STORES 3021");
                     ("amount", VNumber minus_12_5);
                     ("category", VString "Foodstuffs") ];
           VObject [ ("description", VString "ACME PAYROLL");
                     ("amount", VNumber plus_1800);
                     ("category", VString "income");
                     ("note", VBool true) ] ]);
      ("insights", VArray [VString "You spent 12.50 on food"]) ].

Definition repaired_foodstuffs : value :=
  VObject
    [ ("categories",
       VArray
         [ VObject [ ("description", VString "TESCO STORES 3021");
                     ("amount", VNumber minus_12_5);
                     ("category", VString "Other") ];
           VObject [ ("description", VString "ACME PAYROLL");
                     ("amount", VNumber plus_1800);
                     ("category", VString "Other");
                     ("note", VBool true) ] ]);
      ("insights", VArray Service.GENERIC_INSIGHTS) ].

Definition parsed_valid : value :=
  VObject
    [ ("categories",
       VArray
         [ VObject [ ("description", VString "TESCO STORES 3021");
                     ("amount", VNumber minus_12_5);
                     ("category", VString "Groceries") ] ]);
      ("insights",
       VArray [VString "one"; VString "two"; VString "three"; VString "four"]) ].

Definition array_elements_of (result : value) : list value :=
  match categories_of result with Some cats => cats | None => [] end.

(** [req.body] of a text-mode request. *)
Definition body_of (transactions : value) : value :=
  VObject [("transactions", transactions)].

End Examples.

(* ===================================================================== *)
(** ** Vocabulary for the behaviour of the routes and the extractor      *)
(* ===================================================================== *)

Module Observed.

(** [c] occurs somewhere in [s]. *)
Fixpoint occurs (c : ascii) (s : string) : bool :=
  match s with
  | EmptyString => false
  | String d s' => Ascii.eqb c d || occurs c s'
  end.

(** A bracketed piece of text: [{], a body, [}]. *)
Definition braced (body : string) : string :=
  String "{" (body ++ "}").

(** An element at which the validation loop of the text route stops. *)
Definition offends (t : value) : bool :=
  nullish t || negb (well_formed_transaction t).

Definition EACH_TRANSACTION : string :=
  "Each transaction must have description (string) and amount (number)".

Definition INVALID_PDF : string :=
  "Invalid PDF file. Please upload a valid bank statement PDF.".

(** The answer of a route once the awaited call has settled. *)
Definition answer (handler : async response) (o : provider_outcome) : response :=
  settle handler o.

(** The keys of a value's own fields, in order. *)
Definition keys (v : value) : list string := map fst (ownProps v).

(** A request whose thousand-and-one elements are all [null]. *)
Definition too_many_nulls : value := VArray (repeat VNull 1001).

(** A reply with JSON between two pieces of prose without braces. *)
Definition wrapped_reply : string :=
  "Here is the result: "
  ++ braced (RefParser.q "categories" ++ ": [], " ++ RefParser.q "insights"
             ++ ": [1, null, {}, " ++ RefParser.q "four" ++ "], "
             ++ RefParser.q "model" ++ ": " ++ RefParser.q "x")
  ++ " I hope this helps.".

(** A reply whose [categories] holds [null], a number and a string. *)
Definition reply_odd_elements : string :=
  braced (RefParser.q "categories" ++ ": [7, " ++ RefParser.q "ab" ++ ", [true]], "
          ++ RefParser.q "insights" ++ ": []").

Definition reply_null_element : string :=
  braced (RefParser.q "categories" ++ ": [{" ++ RefParser.q "category" ++ ": "
          ++ RefParser.q "Pets" ++ "}, null], " ++ RefParser.q "insights" ++ ": []").


(** What [wrapped_reply] parses to. *)
Definition wrapped_parsed : value :=
  VObject
    [ ("categories", VArray []);
      ("insights",
       VArray [ VNumber (RefParser.to_binary64 false 1 0); VNull; VObject [];
                VString "four" ]);
      ("model", VString "x") ].

Definition null_element_props : list (string * value) :=
  [ ("categories", VArray [VObject [("category", VString "Pets")]; VNull]);
    ("insights", VArray []) ].

(** A base64 payload, and the same payload as a data URL. *)
Definition pdf_payload : string := "JVBERi0xLjQKJcfs".
Definition pdf_data_url : string := "data:application/pdf;base64,JVBERi0xLjQKJcfs".

(** [req.body] of a document-mode request. *)
Definition pdf_body_of (pdf : value) : value := VObject [("pdf", pdf)].

End Observed.
Import Observed.

(* ===================================================================== *)
(** ** Properties of the JavaScript operations                           *)
(* ===================================================================== *)

Section JSFacts.

Lemma lookup_setProp_same k v props :
  lookup k (setProp k v props) = Some v.
Proof.
  induction props as [|[k' v'] rest IH]; simpl.
  - now rewrite String.eqb_refl.
  - destruct (String.eqb k k') eqn:E; simpl.
    + now rewrite String.eqb_refl.
    + now rewrite E.
Qed.

Lemma lookup_setProp_other k k' v props :
  k' <> k -> lookup k' (setProp k v props) = lookup k' props.
Proof.
  intros Hne.
  induction props as [|[k0 v0] rest IH]; simpl.
  - destruct (String.eqb_spec k' k); [contradiction | reflexivity].
  - destruct (String.eqb_spec k k0) as [->|Hk]; simpl.
    + destruct (String.eqb_spec k' k0); [contradiction | reflexivity].
    + now rewrite IH.
Qed.

Lemma setProp_unchanged k v props :
  lookup k props = Some v -> setProp k v props = props.
Proof.
  induction props as [|[k0 v0] rest IH]; simpl; [discriminate|].
  destruct (String.eqb_spec k k0) as [->|Hk].
  - now intros [= ->].
  - intros H. now rewrite IH.
Qed.

Lemma other_fields_setProp v props :
  other_fields (setProp "category" v props) = other_fields props.
Proof.
  unfold other_fields.
  induction props as [|[k0 v0] rest IH].
  - reflexivity.
  - cbn [setProp].
    destruct (String.eqb_spec "category" k0) as [<-|Hk].
    + reflexivity.
    + cbn [filter fst]. now rewrite IH.
Qed.

Lemma mapM_Return_Forall2 {A B} (f : A -> completion B) l out :
  mapM f l = Return out -> Forall2 (fun x y => f x = Return y) l out.
Proof.
  revert out. induction l as [|x l IH]; simpl; intros out H.
  - injection H as <-. constructor.
  - destruct (f x) eqn:Hx; [|discriminate].
    destruct (mapM f l) eqn:Hl; [|discriminate].
    injection H as <-. constructor; auto.
Qed.

Lemma Forall2_mapM_Return {A B} (f : A -> completion B) l out :
  Forall2 (fun x y => f x = Return y) l out -> mapM f l = Return out.
Proof.
  induction 1 as [|x y l out Hx _ IH]; simpl.
  - reflexivity.
  - now rewrite Hx, IH.
Qed.

Lemma mapM_pure {A B} (f : A -> completion B) (g : A -> B) l :
  Forall (fun x => f x = Return (g x)) l -> mapM f l = Return (map g l).
Proof.
  induction 1 as [|x l Hx _ IH]; simpl.
  - reflexivity.
  - now rewrite Hx, IH.
Qed.

Lemma startsWith_refl s : startsWith s s = true.
Proof.
  induction s as [|c s IH]; simpl; [reflexivity|].
  now rewrite Ascii.eqb_refl.
Qed.

Lemma includes_suffix p s : includes (p ++ s) s = true.
Proof.
  induction p as [|c p IH]; simpl.
  - destruct s; simpl; [reflexivity|].
    now rewrite Ascii.eqb_refl, startsWith_refl.
  - rewrite IH. apply orb_true_r.
Qed.

Lemma array_includes_VString labels label :
  array_includes labels (VString label) = existsb (String.eqb label) labels.
Proof.
  unfold array_includes.
  induction labels as [|l labels IH]; simpl; [reflexivity|].
  rewrite String.eqb_sym. f_equal. exact IH.
Qed.

Lemma array_includes_string labels v :
  array_includes labels v = true ->
  exists label, v = VString label /\ existsb (String.eqb label) labels = true.
Proof.
  intros H.
  destruct v as [| |b|x|s|elems|props];
    try (exfalso; unfold array_includes in H;
         induction labels; simpl in H; [discriminate | auto]; fail).
  exists s. split; [reflexivity|].
  now rewrite <- array_includes_VString.
Qed.

(** Array-index keys are spelled with digits only, so no named property
    of the service is ever found among the indexed ones. *)
Lemma index_key_digits i :
  Regex.all_in_class
    (fun c => (48 <=? N_of_ascii c)%N && (N_of_ascii c <=? 57)%N)
    (index_key i) = true.
Proof.
  unfold index_key. generalize (Nat.to_uint i) as d.
  induction d; simpl; auto.
Qed.

Lemma lookup_indexed_named k i (l : list value) :
  Regex.all_in_class
    (fun c => (48 <=? N_of_ascii c)%N && (N_of_ascii c <=? 57)%N) k = false ->
  lookup k (indexed_from i l) = None.
Proof.
  intros Hk. revert i. induction l as [|x l IH]; intros i; simpl; [reflexivity|].
  destruct (String.eqb_spec k (index_key i)) as [->|_].
  - now rewrite index_key_digits in Hk.
  - apply IH.
Qed.

End JSFacts.

(* ===================================================================== *)
(** ** The extractor selects the region the specification describes      *)
(* ===================================================================== *)

Section ExtractorFacts.

(** [indexOf] finds an occurrence and nothing before it is one. *)
Lemma indexOf_first c s i :
  indexOf c s = Some i ->
  String.get i s = Some c /\
  forall j, j < i -> String.get j s <> Some c.
Proof.
  revert i. induction s as [|d s IH]; simpl; intros i H; [discriminate|].
  destruct (Ascii.eqb_spec c d) as [->|Hcd].
  - injection H as <-. split; [reflexivity | intros j Hj; lia].
  - destruct (indexOf c s) as [i'|]; [|discriminate].
    injection H as <-. destruct (IH i' eq_refl) as [Hget Hbefore].
    split; [exact Hget|].
    intros [|j] Hj; simpl.
    + congruence.
    + apply Hbefore. lia.
Qed.

Lemma indexOf_none c s :
  indexOf c s = None -> forall j, String.get j s <> Some c.
Proof.
  induction s as [|d s IH]; simpl; intros H j.
  - destruct j; discriminate.
  - destruct (Ascii.eqb_spec c d) as [->|Hcd]; [discriminate|].
    destruct (indexOf c s); [discriminate|].
    destruct j as [|j]; simpl; [congruence | now apply IH].
Qed.

(** [lastIndexOf] finds an occurrence and nothing after it is one. *)
Lemma lastIndexOf_last c s j :
  lastIndexOf c s = Some j ->
  String.get j s = Some c /\
  forall k, j < k -> String.get k s <> Some c.
Proof.
  revert j. induction s as [|d s IH]; simpl; intros j H; [discriminate|].
  destruct (lastIndexOf c s) as [j'|] eqn:Hlast.
  - injection H as <-. destruct (IH j' eq_refl) as [Hget Hafter].
    split; [exact Hget|].
    intros [|k] Hk; [lia|]. simpl. apply Hafter. lia.
  - destruct (Ascii.eqb_spec c d) as [->|Hcd]; [|discriminate].
    injection H as <-. split; [reflexivity|].
    intros [|k] Hk; [lia|]. simpl.
    clear - Hlast. revert k.
    induction s as [|e s IHs]; intros k; simpl in *.
    + destruct k; discriminate.
    + destruct (lastIndexOf d s); [discriminate|].
      destruct (Ascii.eqb_spec d e) as [->|Hde]; [discriminate|].
      destruct k as [|k]; simpl; [congruence | now apply IHs].
Qed.

Lemma lastIndexOf_none c s :
  lastIndexOf c s = None -> forall k, String.get k s <> Some c.
Proof.
  induction s as [|e s IHs]; intros H k; simpl in *.
  - destruct k; discriminate.
  - destruct (lastIndexOf c s); [discriminate|].
    destruct (Ascii.eqb_spec c e) as [->|Hce]; [discriminate|].
    destruct k as [|k]; simpl; [congruence | now apply IHs].
Qed.

(** The greedy star followed by [}] takes everything up to the last [}]. *)
Lemma match_star_rbrace s :
  Regex.match_here [Regex.AnyStar; Regex.Lit "}"%char] s =
  match lastIndexOf "}" s with
  | Some j => Some (substring 0 (S j) s)
  | None => None
  end.
Proof.
  induction s as [|d s IH].
  - reflexivity.
  - change (Regex.match_here [Regex.AnyStar; Regex.Lit "}"%char] (String d s))
      with (match Regex.match_here [Regex.AnyStar; Regex.Lit "}"%char] s with
            | Some m => Some (String d m)
            | None => Regex.match_here [Regex.Lit "}"%char] (String d s)
            end).
    rewrite IH. cbn [lastIndexOf].
    destruct (lastIndexOf "}" s) as [j|].
    + reflexivity.
    + cbn [Regex.match_here].
      destruct (Ascii.eqb "}" d); [|reflexivity].
      simpl. now destruct s.
Qed.

Lemma match_here_JSON_REGION d s :
  Regex.match_here Service.JSON_REGION (String d s) =
  if Ascii.eqb "{" d
  then match lastIndexOf "}" s with
       | Some j => Some (String d (substring 0 (S j) s))
       | None => None
       end
  else None.
Proof.
  unfold Service.JSON_REGION.
  change (Regex.match_here (Regex.Lit "{"%char :: [Regex.AnyStar; Regex.Lit "}"%char])
            (String d s))
    with (if Ascii.eqb "{" d
          then option_map (String d)
                 (Regex.match_here [Regex.AnyStar; Regex.Lit "}"%char] s)
          else None).
  rewrite match_star_rbrace.
  destruct (Ascii.eqb "{" d); [|reflexivity].
  now destruct (lastIndexOf "}" s).
Qed.

Lemma bracketed_region_skip d s :
  Ascii.eqb "{" d = false ->
  bracketed_region (String d s) = bracketed_region s.
Proof.
  intros Hd. unfold bracketed_region. cbn [indexOf lastIndexOf]. rewrite Hd.
  destruct (indexOf "{" s) as [i|]; cbn [option_map]; [|reflexivity].
  destruct (lastIndexOf "}" s) as [j|].
  - change (S i <? S j)%nat with (i <? j)%nat.
    destruct (i <? j)%nat; [|reflexivity].
    replace (S j - S i + 1) with (j - i + 1) by lia. reflexivity.
  - destruct (Ascii.eqb "}" d); reflexivity.
Qed.

(** The regular expression of the source and the region of the
    specification are the same function of the text. *)
Lemma exec_JSON_REGION text :
  Regex.exec Service.JSON_REGION text = bracketed_region text.
Proof.
  induction text as [|d s IH].
  - reflexivity.
  - cbn [Regex.exec]. rewrite match_here_JSON_REGION.
    destruct (Ascii.eqb "{" d) eqn:Hd.
    + unfold bracketed_region. cbn [indexOf lastIndexOf]. rewrite Hd.
      destruct (lastIndexOf "}" s) as [j|] eqn:Hlast.
      * change (0 <? S j)%nat with true. cbn iota.
        replace (S j - 0 + 1) with (S (S j)) by lia. reflexivity.
      * rewrite IH. apply Ascii.eqb_eq in Hd. subst d.
        unfold bracketed_region. rewrite Hlast.
        now destruct (indexOf "{" s).
    + rewrite IH. symmetry. now apply bracketed_region_skip.
Qed.

Variable JSON_parse : string -> option value.

Lemma extractJSON_region text :
  Service.extractJSON JSON_parse text =
  match bracketed_region text with
  | None => Throw (Error "No JSON found in response")
  | Some region =>
      match JSON_parse region with
      | Some result => Return result
      | None => Throw (SyntaxError "JSON.parse")
      end
  end.
Proof.
  unfold Service.extractJSON. now rewrite exec_JSON_REGION.
Qed.

Lemma extraction_fails_Throw text :
  extraction_fails JSON_parse text <->
  exists e, Service.extractJSON JSON_parse text = Throw e.
Proof.
  rewrite extractJSON_region. unfold extraction_fails. split.
  - intros [->|(region & -> & ->)]; eauto.
  - intros [e H].
    destruct (bracketed_region text) as [region|]; [|now left].
    right. exists region. split; [reflexivity|].
    destruct (JSON_parse region); [discriminate | reflexivity].
Qed.

(** C7: the Response Extractor selects exactly the substring from the
    first [{] to the last [}] of the raw text (the region the pattern
    [/\{[\s\S]*\}/] matches is [bracketed_region], whose two ends are the
    first [{] and the last [}]), hands that substring to [JSON.parse], and
    fails exactly when there is no such region or the region does not
    parse. *)
Theorem extractor_selects_region_and_fails_exactly (text : string) :
  Regex.exec Service.JSON_REGION text = bracketed_region text
  /\ (forall region,
        bracketed_region text = Some region ->
        exists i j,
          (String.get i text = Some "{"%char /\
           forall k, k < i -> String.get k text <> Some "{"%char) /\
          (String.get j text = Some "}"%char /\
           forall k, j < k -> String.get k text <> Some "}"%char) /\
          i < j /\ region = substring i (j - i + 1) text)
  /\ (bracketed_region text = None ->
        (forall k, String.get k text <> Some "{"%char) \/
        (exists i, String.get i text = Some "{"%char /\
                   (forall k, k < i -> String.get k text <> Some "{"%char) /\
                   forall k, i < k -> String.get k text <> Some "}"%char))
  /\ Service.extractJSON JSON_parse text =
       match bracketed_region text with
       | None => Throw (Error "No JSON found in response")
       | Some region =>
           match JSON_parse region with
           | Some result => Return result
           | None => Throw (SyntaxError "JSON.parse")
           end
       end
  /\ ((exists e, Service.extractJSON JSON_parse text = Throw e) <->
      (bracketed_region text = None \/
       exists region, bracketed_region text = Some region /\
                      JSON_parse region = None)).
Proof.
  split; [apply exec_JSON_REGION|].
  split; [|split; [|split; [apply extractJSON_region|]]].
  - intros region H. unfold bracketed_region in H.
    destruct (indexOf "{" text) as [i|] eqn:Hi; [|discriminate].
    destruct (lastIndexOf "}" text) as [j|] eqn:Hj; [|discriminate].
    destruct (Nat.ltb_spec i j) as [Hij|Hij]; [|discriminate].
    injection H as <-. exists i, j.
    split; [now apply indexOf_first|].
    split; [now apply lastIndexOf_last|]. now split.
  - intros H. unfold bracketed_region in H.
    destruct (indexOf "{" text) as [i|] eqn:Hi.
    + right. exists i. destruct (indexOf_first _ _ _ Hi) as [Hget Hbefore].
      split; [exact Hget|]. split; [exact Hbefore|].
      destruct (lastIndexOf "}" text) as [j|] eqn:Hj.
      * destruct (Nat.ltb_spec i j) as [Hij|Hij]; [discriminate|].
        destruct (lastIndexOf_last _ _ _ Hj) as [_ Hafter].
        intros k Hk. apply Hafter. lia.
      * intros k _. now apply lastIndexOf_none.
    + left. now apply indexOf_none.
  - symmetry. apply extraction_fails_Throw.
Qed.

End ExtractorFacts.

(* ===================================================================== *)
(** ** The Result Validator/Repairer                                     *)
(* ===================================================================== *)

Section RepairFacts.


Lemma in_taxonomy_repaired_label c : in_taxonomy (repaired_label c) = true.
Proof.
  destruct c; try reflexivity. simpl.
  destruct (in_taxonomy s) eqn:E; [exact E | reflexivity].
Qed.

(** The conditional of the source computes the repaired label. *)
Lemma repaired_value c :
  (if array_includes Service.VALID_CATEGORIES c then c else VString "Other")
  = VString (repaired_label c).
Proof.
  destruct (array_includes Service.VALID_CATEGORIES c) eqn:E.
  - apply array_includes_string in E as (label & -> & Hin).
    simpl. fold (in_taxonomy label) in Hin. now rewrite Hin.
  - destruct c; try reflexivity.
    rewrite array_includes_VString in E. simpl.
    fold (in_taxonomy s) in E. now rewrite E.
Qed.

Lemma getProp_field v k :
  nullish v = false -> getProp v k = Return (field v k).
Proof. destruct v; simpl; intros H; try discriminate; reflexivity. Qed.

Lemma getProp_nullish v k :
  nullish v = true -> exists e, getProp v k = Throw e.
Proof. destruct v; simpl; intros H; try discriminate; eauto. Qed.

Lemma repairCategory_Return cat :
  nullish cat = false ->
  Service.repairCategory cat = Return (repaired_element cat).
Proof.
  intros H. unfold Service.repairCategory.
  rewrite (getProp_field _ _ H). cbn [bind].
  now rewrite repaired_value.
Qed.

Lemma repairCategory_nullish cat :
  nullish cat = true -> exists e, Service.repairCategory cat = Throw e.
Proof.
  intros H. unfold Service.repairCategory.
  destruct (getProp_nullish cat "category" H) as [e ->]. now exists e.
Qed.

Lemma mapM_repairCategory_Return cats :
  forallb (fun c => negb (nullish c)) cats = true ->
  mapM Service.repairCategory cats = Return (map repaired_element cats).
Proof.
  intros H. apply mapM_pure. rewrite forallb_forall in H.
  apply Forall_forall. intros c Hc. apply repairCategory_Return.
  specialize (H c Hc). now destruct (nullish c).
Qed.

Lemma mapM_repairCategory_inv cats out :
  mapM Service.repairCategory cats = Return out ->
  forallb (fun c => negb (nullish c)) cats = true /\
  out = map repaired_element cats.
Proof.
  revert out. induction cats as [|c cats IH]; simpl; intros out H.
  - injection H as <-. now split.
  - destruct (nullish c) eqn:Hc.
    + destruct (repairCategory_nullish c Hc) as [e He].
      rewrite He in H. discriminate.
    + rewrite (repairCategory_Return c Hc) in H.
      destruct (mapM Service.repairCategory cats) as [ys|]; [|discriminate].
      injection H as <-. destruct (IH ys eq_refl) as [-> ->]. now split.
Qed.

Lemma categorized_repaired_element cat :
  categorized (repaired_element cat) = true.
Proof.
  unfold repaired_element, categorized.
  rewrite lookup_setProp_same. apply in_taxonomy_repaired_label.
Qed.

Lemma validateCategories_Return props cats :
  lookup "categories" props = Some (VArray cats) ->
  forallb (fun c => negb (nullish c)) cats = true ->
  Service.validateCategories (VObject props) =
  Return (VObject (setProp "categories" (VArray (map repaired_element cats)) props)).
Proof.
  intros Hcats Hall. unfold Service.validateCategories, getProp.
  cbn [ownProps bind]. rewrite Hcats. cbn [callMap].
  now rewrite (mapM_repairCategory_Return _ Hall).
Qed.

Lemma validateCategories_inv result result' :
  Service.validateCategories result = Return result' ->
  exists props cats,
    result = VObject props /\
    lookup "categories" props = Some (VArray cats) /\
    forallb (fun c => negb (nullish c)) cats = true /\
    result' = VObject (setProp "categories" (VArray (map repaired_element cats)) props).
Proof.
  unfold Service.validateCategories. intros H.
  destruct result as [| |b|x|s|elems|props];
    try (cbn in H; discriminate);
    try (cbn [getProp bind] in H;
         match type of H with
         | context [callMap ?e ?v ?f] => destruct (callMap e v f)
         end; cbn in H; discriminate).
  cbn [getProp ownProps bind] in H.
  destruct (lookup "categories" props) as [v|] eqn:Hl; [|cbn in H; discriminate].
  destruct v as [| |b|x|s|cats|props']; try (cbn in H; discriminate).
  cbn [callMap] in H.
  destruct (mapM Service.repairCategory cats) as [out|] eqn:Hm;
    [|cbn in H; discriminate].
  cbn in H. injection H as <-.
  apply mapM_repairCategory_inv in Hm as [Hall ->].
  now exists props, cats.
Qed.

Lemma ensureInsights_object props :
  Service.ensureInsights (VObject props) = Return (with_insights (VObject props)).
Proof.
  unfold Service.ensureInsights, with_insights, insights_deficient, insights_of.
  cbn [getProp ownProps bind].
  destruct (lookup "insights" props) as [v|]; [|reflexivity].
  destruct v as [| |b|x|s|ins|props']; cbn [isArray negb];
    try (rewrite orb_true_r; reflexivity).
  cbn [truthy negb orb array_length assign].
  now destruct (List.length ins <? 3)%nat.
Qed.

Lemma repair_Return props cats :
  lookup "categories" props = Some (VArray cats) ->
  forallb (fun c => negb (nullish c)) cats = true ->
  Service.repair (VObject props) = Return (repaired_result props cats).
Proof.
  intros Hcats Hall. unfold Service.repair.
  rewrite (validateCategories_Return _ _ Hcats Hall). cbn [bind].
  apply ensureInsights_object.
Qed.

Lemma repair_inv result result' :
  Service.repair result = Return result' ->
  exists props cats,
    result = VObject props /\
    lookup "categories" props = Some (VArray cats) /\
    forallb (fun c => negb (nullish c)) cats = true /\
    result' = repaired_result props cats.
Proof.
  unfold Service.repair. intros H.
  destruct (Service.validateCategories result) as [r1|] eqn:Hv; [|discriminate].
  cbn [bind] in H.
  apply validateCategories_inv in Hv as (props & cats & -> & Hl & Hall & ->).
  rewrite ensureInsights_object in H. injection H as <-.
  now exists props, cats.
Qed.

Lemma repair_Throw result :
  categories_of result = None -> exists e, Service.repair result = Throw e.
Proof.
  intros Hnone.
  destruct (Service.repair result) as [r'|e] eqn:H; [|now exists e].
  apply repair_inv in H as (props & cats & -> & Hl & _).
  unfold categories_of in Hnone. rewrite Hl in Hnone. discriminate.
Qed.

Lemma categories_of_repaired_result props cats :
  categories_of (repaired_result props cats) = Some (map repaired_element cats).
Proof.
  unfold repaired_result, with_insights.
  destruct (insights_deficient _); unfold categories_of.
  - rewrite lookup_setProp_other by discriminate.
    now rewrite lookup_setProp_same.
  - now rewrite lookup_setProp_same.
Qed.

Lemma insights_of_repaired_result props cats :
  exists insights,
    insights_of (repaired_result props cats) = Some insights /\
    3 <= List.length insights.
Proof.
  unfold repaired_result, with_insights.
  destruct (insights_deficient _) eqn:Hd.
  - exists Service.GENERIC_INSIGHTS. unfold insights_of.
    rewrite lookup_setProp_same. split; [reflexivity | simpl; lia].
  - unfold insights_deficient in Hd.
    destruct (insights_of _) as [ins|]; [|discriminate].
    exists ins. split; [reflexivity|]. apply Nat.ltb_ge in Hd. exact Hd.
Qed.

(** On anything but an object the first repair statement throws while
    reading [result.categories.map]: its assignment is never reached. *)
Lemma validateCategories_non_object result :
  match result with
  | VObject _ => True
  | VUndefined | VNull =>
      Service.validateCategories result =
      Throw (TypeError ("Cannot read properties of " ++ describe_nullish result
                          ++ " (reading 'categories')"))
  | _ =>
      Service.validateCategories result =
      Throw (TypeError "Cannot read properties of undefined (reading 'map')")
  end.
Proof.
  destruct result as [| |b|x|s|elems|props]; try reflexivity; try exact I;
    unfold Service.validateCategories, getProp; cbn [ownProps];
    now rewrite lookup_indexed_named.
Qed.

End RepairFacts.

(* ===================================================================== *)
(** ** Valid results pass through the validator unchanged                *)
(* ===================================================================== *)

Section Idempotence.

Lemma categorized_not_nullish c : categorized c = true -> nullish c = false.
Proof. destruct c; simpl; intros H; try discriminate; reflexivity. Qed.

Lemma repaired_element_categorized c :
  categorized c = true -> repaired_element c = c.
Proof.
  destruct c as [| |b|x|s|elems|props]; simpl; try discriminate.
  unfold repaired_element, field. cbn [ownProps].
  destruct (lookup "category" props) as [v|] eqn:Hl; [|discriminate].
  destruct v as [| |b|x|label|elems|props']; try discriminate.
  intros Hin. cbn [repaired_label]. rewrite Hin.
  now rewrite (setProp_unchanged _ _ _ Hl).
Qed.

Lemma map_repaired_element_categorized cats :
  forallb categorized cats = true -> map repaired_element cats = cats.
Proof.
  induction cats as [|c cats IH]; simpl; [reflexivity|].
  intros H. apply andb_true_iff in H as [Hc Hcats].
  now rewrite (repaired_element_categorized _ Hc), IH.
Qed.

Lemma forallb_categorized_not_nullish cats :
  forallb categorized cats = true ->
  forallb (fun c => negb (nullish c)) cats = true.
Proof.
  induction cats as [|c cats IH]; simpl; [reflexivity|].
  intros H. apply andb_true_iff in H as [Hc Hcats].
  now rewrite (categorized_not_nullish _ Hc), IH.
Qed.

Lemma valid_result_inv result :
  valid_result result = true ->
  exists props cats insights,
    result = VObject props /\
    lookup "categories" props = Some (VArray cats) /\
    lookup "insights" props = Some (VArray insights) /\
    forallb categorized cats = true /\
    3 <= List.length insights.
Proof.
  unfold valid_result, categories_of, insights_of.
  destruct result as [| |b|x|s|elems|props]; try discriminate.
  destruct (lookup "categories" props) as [[| |b|x|s|cats|p]|] eqn:Hcats;
    try discriminate.
  destruct (lookup "insights" props) as [[| |b|x|s|ins|p]|] eqn:Hins;
    try discriminate.
  intros H. apply andb_true_iff in H as [Hc Hi]. apply Nat.leb_le in Hi.
  now exists props, cats, ins.
Qed.

Lemma repair_valid result :
  valid_result result = true -> Service.repair result = Return result.
Proof.
  intros H.
  apply valid_result_inv in H as (props & cats & ins & -> & Hc & Hi & Hall & Hlen).
  rewrite (repair_Return _ _ Hc (forallb_categorized_not_nullish _ Hall)).
  unfold repaired_result.
  rewrite (map_repaired_element_categorized _ Hall).
  rewrite (setProp_unchanged _ _ _ Hc).
  unfold with_insights, insights_deficient, insights_of. rewrite Hi.
  apply Nat.ltb_ge in Hlen. now rewrite Hlen.
Qed.

Lemma forallb_categorized_map_repaired cats :
  forallb categorized (map repaired_element cats) = true.
Proof.
  induction cats as [|c cats IH]; cbn [map forallb]; [reflexivity|].
  now rewrite categorized_repaired_element, IH.
Qed.

Lemma valid_repaired_result props cats :
  valid_result (repaired_result props cats) = true.
Proof.
  unfold valid_result.
  rewrite categories_of_repaired_result.
  destruct (insights_of_repaired_result props cats) as (ins & -> & Hlen).
  rewrite forallb_categorized_map_repaired.
  now apply Nat.leb_le.
Qed.

(** Whatever the validator returns is valid. *)
Lemma repair_returns_valid result result' :
  Service.repair result = Return result' -> valid_result result' = true.
Proof.
  intros H. apply repair_inv in H as (props & cats & _ & _ & _ & ->).
  apply valid_repaired_result.
Qed.

End Idempotence.

(* ===================================================================== *)
(** ** The two entry points                                              *)
(* ===================================================================== *)

Section PipelineFacts.

Variable JSON_parse : string -> option value.

Lemma echoAsOther_Return t :
  nullish t = false -> Service.echoAsOther t = Return (echoed t).
Proof.
  intros H. unfold Service.echoAsOther.
  now rewrite !(getProp_field _ _ H).
Qed.

Lemma mapM_echoAsOther ts :
  forallb (fun t => negb (nullish t)) ts = true ->
  mapM Service.echoAsOther ts = Return (map echoed ts).
Proof.
  intros H. apply mapM_pure. rewrite forallb_forall in H.
  apply Forall_forall. intros t Ht. apply echoAsOther_Return.
  specialize (H t Ht). now destruct (nullish t).
Qed.

Lemma valid_text_fallback ts : valid_result (text_fallback ts) = true.
Proof.
  unfold valid_result, text_fallback. cbn.
  rewrite andb_true_r. now induction ts.
Qed.

Lemma valid_pdf_fallback : valid_result pdf_fallback = true.
Proof. reflexivity. Qed.

(** Both entry points return only what the validator returned. *)
Lemma text_resume_Return_inv transactions o result :
  Service.categorizeTransactions_resume JSON_parse transactions o = Return result ->
  exists parsed, Service.repair parsed = Return result.
Proof.
  unfold Service.categorizeTransactions_resume. intros H.
  destruct o as [responseText|cause]; [|discriminate].
  match type of H with
  | try_catch (bind ?c _) _ = _ => destruct c as [parsed|e]; [|discriminate]
  end.
  cbn [bind] in H. exists parsed.
  destruct (Service.repair parsed); [exact H | discriminate].
Qed.

Lemma pdf_resume_Return_inv o result :
  Service.categorizePdfStatement_resume JSON_parse o = Return result ->
  exists parsed, Service.repair parsed = Return result.
Proof.
  unfold Service.categorizePdfStatement_resume. intros H.
  destruct o as [responseText|cause].
  - match type of H with
    | try_catch (bind ?c _) _ = _ => destruct c as [parsed|e]
    end.
    + cbn [bind] in H. exists parsed.
      destruct (Service.repair parsed); [exact H|].
      cbn [try_catch] in H. destruct (includes _ _); discriminate.
    + cbn [bind try_catch] in H. destruct (includes _ _); discriminate.
  - cbn [try_catch] in H. destruct (includes _ _); discriminate.
Qed.

Lemma text_resume_parsed transactions text parsed :
  Service.extractJSON JSON_parse text = Return parsed ->
  Service.categorizeTransactions_resume JSON_parse transactions (Resolved text) =
  try_catch (Service.repair parsed)
    (fun error => Throw (Error ("Categorization failed: " ++ message error))).
Proof.
  intros H. unfold Service.categorizeTransactions_resume. now rewrite H.
Qed.

Lemma pdf_resume_parsed text parsed :
  Service.extractJSON JSON_parse text = Return parsed ->
  Service.categorizePdfStatement_resume JSON_parse (Resolved text) =
  try_catch (Service.repair parsed)
    (fun error =>
       if includes (message error) "invalid_pdf"
       then Throw (Error "Invalid PDF file. Please upload a valid bank statement PDF.")
       else Throw (Error ("PDF processing failed: " ++ message error))).
Proof.
  intros H. unfold Service.categorizePdfStatement_resume. now rewrite H.
Qed.

Lemma text_resume_fallback ts text :
  extraction_fails JSON_parse text ->
  forallb (fun t => negb (nullish t)) ts = true ->
  Service.categorizeTransactions_resume JSON_parse (VArray ts) (Resolved text) = Return (text_fallback ts).
Proof.
  intros Hfail Hts.
  apply extraction_fails_Throw in Hfail as [e He].
  unfold Service.categorizeTransactions_resume. rewrite He.
  cbn [try_catch callMap]. rewrite (mapM_echoAsOther _ Hts). cbn [bind].
  fold (text_fallback ts). now rewrite (repair_valid _ (valid_text_fallback ts)).
Qed.

Lemma pdf_resume_fallback text :
  extraction_fails JSON_parse text ->
  Service.categorizePdfStatement_resume JSON_parse (Resolved text) = Return pdf_fallback.
Proof.
  intros Hfail.
  apply extraction_fails_Throw in Hfail as [e He].
  unfold Service.categorizePdfStatement_resume. rewrite He.
  reflexivity.
Qed.

End PipelineFacts.

(* ===================================================================== *)
(** ** The text route                                                    *)
(* ===================================================================== *)

Section RouteFacts.

Variable JSON_parse : string -> option value.

Lemma checkEach_not_nullish ts :
  forallb (fun t => negb (nullish t)) ts = true ->
  Routes.checkEach ts =
  Return (if forallb well_formed_transaction ts then None
          else Some (Routes.invalid_request
                 "Each transaction must have description (string) and amount (number)")).
Proof.
  induction ts as [|t ts IH]; cbn [forallb Routes.checkEach]; [reflexivity|].
  intros H. apply andb_true_iff in H as [Ht Hts].
  apply negb_true_iff in Ht.
  rewrite !(getProp_field _ _ Ht). cbn [bind].
  unfold well_formed_transaction at 1.
  destruct (truthy (field t "description")); cbn [negb andb]; [|reflexivity].
  destruct (typeof_number (field t "amount")); cbn [negb]; [|reflexivity].
  now apply IH.
Qed.

Lemma checkEach_None ts :
  Routes.checkEach ts = Return None ->
  forallb (fun t => negb (nullish t)) ts = true /\
  forallb well_formed_transaction ts = true.
Proof.
  induction ts as [|t ts IH]; cbn [forallb Routes.checkEach]; [now split|].
  intros H. destruct (nullish t) eqn:Ht.
  - destruct (getProp_nullish t "description" Ht) as [e He].
    rewrite He in H. discriminate.
  - rewrite !(getProp_field _ _ Ht) in H. cbn [bind] in H.
    unfold well_formed_transaction at 1.
    destruct (truthy (field t "description")); cbn [negb andb] in *;
      [|discriminate].
    destruct (typeof_number (field t "amount")); cbn [negb] in *;
      [|discriminate].
    now apply IH.
Qed.

(** A request is let through exactly when it is acceptable and none of
    its elements is [null] or [undefined]. *)
Lemma validateTransactions_None transactions :
  Routes.validateTransactions transactions = Return None ->
  exists ts, transactions = VArray ts /\
             forallb (fun t => negb (nullish t)) ts = true /\
             acceptable transactions = true.
Proof.
  unfold Routes.validateTransactions. intros H.
  destruct transactions as [| |b|x|s|ts|props];
    try (cbn [isArray negb] in H; rewrite orb_true_r in H; discriminate).
  cbn [truthy isArray negb orb array_length Routes.array_elements] in H.
  exists ts. unfold acceptable.
  destruct (List.length ts =? 0)%nat; [discriminate|].
  rewrite N.leb_antisym.
  destruct (1000 <? N.of_nat (List.length ts))%N; [discriminate|].
  apply checkEach_None in H as [H1 H2]. rewrite H2. now split.
Qed.

(** With no [null] element, the validation answers 400 unless the
    request is acceptable. *)
Lemma validateTransactions_not_nullish transactions :
  forallb (fun t => negb (nullish t)) (Routes.array_elements transactions) = true ->
  if acceptable transactions
  then Routes.validateTransactions transactions = Return None
  else exists msg,
         Routes.validateTransactions transactions =
         Return (Some (Routes.invalid_request msg)).
Proof.
  intros Hall. unfold Routes.validateTransactions, acceptable.
  destruct transactions as [| |b|x|s|ts|props];
    try (cbn [isArray negb]; rewrite orb_true_r; eauto; fail).
  cbn [truthy isArray negb orb array_length Routes.array_elements] in *.
  destruct (List.length ts =? 0)%nat; cbn [negb andb]; [eauto|].
  rewrite N.leb_antisym.
  destruct (1000 <? N.of_nat (List.length ts))%N; cbn [negb andb]; [eauto|].
  rewrite (checkEach_not_nullish _ Hall).
  destruct (forallb well_formed_transaction ts); eauto.
Qed.

(** The handler awaits the model only after the validation let the
    request through. *)
Lemma categorize_calls_model reqBody :
  calls_model (Routes.categorize JSON_parse reqBody) = true ->
  exists ts,
    Routes.destructure "req.body" reqBody "transactions" = Return (VArray ts) /\
    forallb (fun t => negb (nullish t)) ts = true /\
    acceptable (VArray ts) = true /\
    forall o,
      settle (Routes.categorize JSON_parse reqBody) o =
      match Service.categorizeTransactions_resume JSON_parse (VArray ts) o with
      | Return result => Routes.ok result
      | Throw error => Routes.server_error "Categorization failed" error
      end.
Proof.
  unfold Routes.categorize.
  destruct (Routes.destructure "req.body" reqBody "transactions")
    as [transactions|e]; cbn [bind]; [|discriminate].
  destruct (Routes.validateTransactions transactions) as [[r|]|e] eqn:Hv;
    cbn [bind]; try discriminate.
  intros _.
  apply validateTransactions_None in Hv as (ts & -> & Hall & Hacc).
  exists ts. now repeat split.
Qed.

Lemma categorizePdf_calls_model reqBody :
  calls_model (Routes.categorizePdf JSON_parse reqBody) = true ->
  forall o,
    settle (Routes.categorizePdf JSON_parse reqBody) o =
    match Service.categorizePdfStatement_resume JSON_parse o with
    | Return result => Routes.ok result
    | Throw error => Routes.server_error "PDF categorization failed" error
    end.
Proof.
  unfold Routes.categorizePdf.
  destruct (Routes.destructure "req.body" reqBody "pdf") as [pdf|e];
    [|discriminate].
  destruct (Routes.validatePdf pdf); [discriminate | reflexivity].
Qed.

Lemma legacy_resume_Return_inv transactions o result :
  Legacy.categorizeTransactions_resume JSON_parse transactions o = Return result ->
  exists parsed, Service.repair parsed = Return result.
Proof.
  unfold Legacy.categorizeTransactions_resume. intros H.
  destruct o as [responseText|cause]; [|discriminate].
  destruct (Regex.exec Service.JSON_REGION responseText) as [jsonMatch|];
    [|discriminate].
  destruct (JSON_parse jsonMatch) as [parsed|]; [|discriminate].
  cbn [bind] in H. exists parsed.
  destruct (Service.repair parsed); [exact H | discriminate].
Qed.

(** The older copy has no fallback: a reply without a parseable region
    makes it raise. *)
Lemma legacy_extraction_failure_raises transactions text :
  extraction_fails JSON_parse text ->
  exists msg,
    Legacy.categorizeTransactions_resume JSON_parse transactions (Resolved text)
    = Throw (Error ("Categorization failed: " ++ msg)).
Proof.
  unfold Legacy.categorizeTransactions_resume, extraction_fails.
  rewrite exec_JSON_REGION.
  intros [->|(region & -> & ->)]; cbn; eauto.
Qed.

(** For a request none of whose elements is [null], the handler does
    what the specification says: 400 without calling the model unless the
    request is acceptable, and the model call otherwise. *)
Lemma categorize_without_null reqBody transactions :
  Routes.destructure "req.body" reqBody "transactions" = Return transactions ->
  forallb (fun t => negb (nullish t)) (Routes.array_elements transactions) = true ->
  if acceptable transactions
  then Routes.categorize JSON_parse reqBody
       = await (Service.categorizeTransactions JSON_parse transactions)
           (fun c => match c with
                     | Return result => Routes.ok result
                     | Throw error =>
                         Routes.server_error "Categorization failed" error
                     end)
  else exists msg,
         Routes.categorize JSON_parse reqBody
         = Done (Routes.invalid_request msg).
Proof.
  intros Hd Hall. unfold Routes.categorize. rewrite Hd. cbn [bind].
  pose proof (validateTransactions_not_nullish _ Hall) as Hv.
  destruct (acceptable transactions).
  - now rewrite Hv.
  - destruct Hv as [msg ->]. now exists msg.
Qed.

End RouteFacts.

(* ===================================================================== *)
(** ** The sample replies, run                                           *)
(* ===================================================================== *)

Section Runs.

Import Examples.

Example extract_prose :
  Service.extractJSON RefParser.JSON_parse prose
  = Throw (Error "No JSON found in response").
Proof. vm_compute. reflexivity. Qed.

Example extract_reversed :
  Service.extractJSON RefParser.JSON_parse reversed
  = Throw (Error "No JSON found in response").
Proof. vm_compute. reflexivity. Qed.

Example extract_malformed :
  Service.extractJSON RefParser.JSON_parse malformed
  = Throw (SyntaxError "JSON.parse").
Proof. vm_compute. reflexivity. Qed.

Example extract_foodstuffs :
  Service.extractJSON RefParser.JSON_parse reply_foodstuffs
  = Return parsed_foodstuffs.
Proof. vm_compute. reflexivity. Qed.

Example extract_valid :
  Service.extractJSON RefParser.JSON_parse reply_valid = Return parsed_valid.
Proof. vm_compute. reflexivity. Qed.

Example run_foodstuffs :
  Service.categorizeTransactions_resume RefParser.JSON_parse
    (VArray two_transactions) (Resolved reply_foodstuffs)
  = Return repaired_foodstuffs.
Proof. vm_compute. reflexivity. Qed.

Example run_foodstuffs_pdf :
  Service.categorizePdfStatement_resume RefParser.JSON_parse
    (Resolved reply_foodstuffs)
  = Return repaired_foodstuffs.
Proof. vm_compute. reflexivity. Qed.

Example fails_prose : extraction_fails RefParser.JSON_parse prose.
Proof. left. vm_compute. reflexivity. Qed.

Example fails_malformed : extraction_fails RefParser.JSON_parse malformed.
Proof.
  right. eexists. split.
  - vm_compute. reflexivity.
  - vm_compute. reflexivity.
Qed.

(** The greedy match runs to the last closing brace, prose included. *)
Example region_is_greedy :
  Regex.exec Service.JSON_REGION "a{b}c}d{" = Some "{b}c}".
Proof. reflexivity. Qed.

Example category_case_matters :
  repaired_label (VString "groceries") = "Other"
  /\ repaired_label (VString "Groceries") = "Groceries"
  /\ repaired_label (VString "Dining & Takeout") = "Dining & Takeout"
  /\ repaired_label VNull = "Other".
Proof. repeat split. Qed.

(** The reference parser on numbers, repeated keys and key order. *)
Example parse_tenth :
  RefParser.JSON_parse "0.1"
  = Some (VNumber (S754_finite false 7205759403792794 (-56))).
Proof. vm_compute. reflexivity. Qed.

Example parse_ties_to_even :
  RefParser.JSON_parse "9007199254740993"
  = Some (VNumber (S754_finite false 4503599627370496 1)).
Proof. vm_compute. reflexivity. Qed.

Example parse_underflow_is_falsy :
  option_map truthy (RefParser.JSON_parse "1e-400") = Some false.
Proof. vm_compute. reflexivity. Qed.

Example parse_leading_zero : RefParser.JSON_parse "01" = None.
Proof. vm_compute. reflexivity. Qed.

Example parse_key_order :
  option_map (fun v => map fst (ownProps v))
    (RefParser.JSON_parse
       ("{" ++ RefParser.q "b" ++ ":1," ++ RefParser.q "10" ++ ":2,"
        ++ RefParser.q "9" ++ ":3," ++ RefParser.q "b" ++ ":4}"))
  = Some ["9"; "10"; "b"].
Proof. vm_compute. reflexivity. Qed.

(** The text route on small requests. *)
Example route_no_transactions :
  Routes.categorize RefParser.JSON_parse (VObject [])
  = Done (Routes.invalid_request "transactions array is required").
Proof. reflexivity. Qed.

Example route_empty :
  Routes.categorize RefParser.JSON_parse (body_of (VArray []))
  = Done (Routes.invalid_request "transactions array cannot be empty").
Proof. reflexivity. Qed.

Example route_too_many :
  Routes.categorize RefParser.JSON_parse (body_of (VArray (repeat tesco 1001)))
  = Done (Routes.invalid_request "Maximum 1000 transactions allowed per request").
Proof. vm_compute. reflexivity. Qed.

Example route_at_the_limit :
  calls_model
    (Routes.categorize RefParser.JSON_parse (body_of (VArray (repeat tesco 1000))))
  = true.
Proof. vm_compute. reflexivity. Qed.

Example route_missing_amount :
  Routes.categorize RefParser.JSON_parse
    (body_of (VArray [tesco; VObject [("description", VString "no amount")]]))
  = Done (Routes.invalid_request
            "Each transaction must have description (string) and amount (number)").
Proof. vm_compute. reflexivity. Qed.

Example route_repairs :
  settle (Routes.categorize RefParser.JSON_parse (body_of (VArray two_transactions)))
         (Resolved reply_foodstuffs)
  = Routes.ok repaired_foodstuffs.
Proof. vm_compute. reflexivity. Qed.

Example route_provider_failure :
  settle (Routes.categorize RefParser.JSON_parse (body_of (VArray two_transactions)))
         (Rejected "Connection error.")
  = {| status := 500;
       body := VObject
                 [ ("error", VString "Categorization failed");
                   ("message",
                    VString "Categorization failed: Connection error.") ] |}.
Proof. vm_compute. reflexivity. Qed.

(** The older copy of the service raises on a reply without JSON. *)
Example legacy_run_prose :
  Legacy.categorizeTransactions_resume RefParser.JSON_parse
    (VArray two_transactions) (Resolved prose)
  = Throw (Error "Categorization failed: Failed to parse Claude response as JSON").
Proof. vm_compute. reflexivity. Qed.

Example run_categories_object :
  Service.categorizeTransactions_resume RefParser.JSON_parse
    (VArray two_transactions) (Resolved reply_categories_object)
  = Throw (Error "Categorization failed: result.categories.map is not a function").
Proof. vm_compute. reflexivity. Qed.

End Runs.

(* ===================================================================== *)
(** ** The returned list is the list that was parsed, repaired           *)
(* ===================================================================== *)

Section ReturnedList.

Variable JSON_parse : string -> option value.



Lemma map_repaired_echoed ts :
  map repaired_element (map echoed ts) = map echoed ts.
Proof.
  apply map_repaired_element_categorized. now induction ts.
Qed.



Lemma validateCategories_null props cats :
  lookup "categories" props = Some (VArray cats) ->
  forallb (fun c => negb (nullish c)) cats = false ->
  exists e, Service.validateCategories (VObject props) = Throw e.
Proof.
  intros Hcats Hnull.
  destruct (Service.validateCategories (VObject props)) as [r|e] eqn:H;
    [|now exists e].
  apply validateCategories_inv in H as (props' & cats' & [= <-] & Hl & Hall & _).
  rewrite Hcats in Hl. injection Hl as <-. congruence.
Qed.





End ReturnedList.

(* ===================================================================== *)
(** ** The claims of the specification                                   *)
(* ===================================================================== *)

Section Claims.

Variable JSON_parse : string -> option value.

(** C1: when no JSON object can be located in the raw reply, or the
    located region does not parse, the pipeline returns a fallback result
    and does not raise.  Text mode echoes every input transaction with
    category [Other] and carries the 3-element text fallback insights;
    document mode has an empty [categories] list and its own, different,
    3-element insights.  The route answers 200 with that result: the
    caller sees no error. *)
Theorem extraction_failure_yields_fallback (text : string) :
  extraction_fails JSON_parse text ->
  (forall ts,
     forallb (fun t => negb (nullish t)) ts = true ->
     Service.categorizeTransactions_resume JSON_parse (VArray ts) (Resolved text)
     = Return (text_fallback ts))
  /\ Service.categorizePdfStatement_resume JSON_parse (Resolved text)
     = Return pdf_fallback
  /\ (forall reqBody,
        calls_model (Routes.categorize JSON_parse reqBody) = true ->
        exists ts,
          Routes.destructure "req.body" reqBody "transactions" = Return (VArray ts)
          /\ settle (Routes.categorize JSON_parse reqBody) (Resolved text)
             = Routes.ok (text_fallback ts))
  /\ (forall reqBody,
        calls_model (Routes.categorizePdf JSON_parse reqBody) = true ->
        settle (Routes.categorizePdf JSON_parse reqBody) (Resolved text)
        = Routes.ok pdf_fallback)
  /\ List.length Service.TEXT_FALLBACK_INSIGHTS = 3
  /\ List.length Service.PDF_FALLBACK_INSIGHTS = 3
  /\ Service.TEXT_FALLBACK_INSIGHTS <> Service.PDF_FALLBACK_INSIGHTS.
Proof.
  intros Hfail.
  split; [intros ts Hts; now apply text_resume_fallback|].
  split; [now apply pdf_resume_fallback|].
  split; [|split; [|repeat split; discriminate]].
  - intros reqBody Hcalls.
    apply categorize_calls_model in Hcalls as (ts & Hd & Hall & _ & Hsettle).
    exists ts. split; [exact Hd|].
    now rewrite Hsettle, (text_resume_fallback _ _ _ Hfail Hall).
  - intros reqBody Hcalls.
    rewrite (categorizePdf_calls_model _ _ Hcalls).
    now rewrite (pdf_resume_fallback _ _ Hfail).
Qed.


(** C3: whenever an entry point returns a result, its [insights] is a
    sequence of at least 3 elements. *)
Theorem returned_insights_at_least_three
    (transactions : value) (o : provider_outcome) (result : value) :
  Service.categorizeTransactions_resume JSON_parse transactions o = Return result
  \/ Service.categorizePdfStatement_resume JSON_parse o = Return result
  \/ Legacy.categorizeTransactions_resume JSON_parse transactions o = Return result ->
  exists insights,
    insights_of result = Some insights /\ 3 <= List.length insights.
Proof.
  intros H.
  assert (Hrep : exists parsed, Service.repair parsed = Return result).
  { destruct H as [H|[H|H]].
    - eapply text_resume_Return_inv; eassumption.
    - eapply pdf_resume_Return_inv; eassumption.
    - eapply legacy_resume_Return_inv; eassumption. }
  destruct Hrep as [parsed Hrep].
  apply repair_inv in Hrep as (props & cats & _ & _ & _ & ->).
  apply insights_of_repaired_result.
Qed.

(** C4, as the code has it: when the model call itself fails, both entry
    points raise and neither returns a fallback.  Text mode raises
    [Categorization failed: <cause>], whose message includes the cause.
    Document mode raises [PDF processing failed: <cause>], which includes
    the cause, unless the cause contains [invalid_pdf]: then it raises the
    fixed message [Invalid PDF file. Please upload a valid bank statement
    PDF.] in place of the cause.  The routes answer 500 with that
    message. *)
Theorem provider_failure_raises (transactions : value) (cause : string) :
  Service.categorizeTransactions_resume JSON_parse transactions (Rejected cause)
  = Throw (Error ("Categorization failed: " ++ cause))
  /\ includes ("Categorization failed: " ++ cause) cause = true
  /\ Service.categorizePdfStatement_resume JSON_parse (Rejected cause)
     = Throw (Error (if includes cause "invalid_pdf"
                     then "Invalid PDF file. Please upload a valid bank statement PDF."
                     else "PDF processing failed: " ++ cause))
  /\ (includes cause "invalid_pdf" = false ->
      exists e,
        Service.categorizePdfStatement_resume JSON_parse (Rejected cause) = Throw e
        /\ includes (message e) cause = true)
  /\ (forall reqBody,
        calls_model (Routes.categorize JSON_parse reqBody) = true ->
        settle (Routes.categorize JSON_parse reqBody) (Rejected cause)
        = Routes.server_error "Categorization failed"
            (Error ("Categorization failed: " ++ cause)))
  /\ (forall reqBody,
        calls_model (Routes.categorizePdf JSON_parse reqBody) = true ->
        status (settle (Routes.categorizePdf JSON_parse reqBody) (Rejected cause))
        = 500).
Proof.
  split; [reflexivity|].
  split; [apply includes_suffix|].
  assert (Hpdf :
    Service.categorizePdfStatement_resume JSON_parse (Rejected cause)
    = Throw (Error (if includes cause "invalid_pdf"
                    then "Invalid PDF file. Please upload a valid bank statement PDF."
                    else "PDF processing failed: " ++ cause))).
  { unfold Service.categorizePdfStatement_resume. cbn [try_catch message].
    now destruct (includes cause "invalid_pdf"). }
  split; [exact Hpdf|].
  split; [|split].
  - intros Hno. rewrite Hpdf, Hno. eexists. split; [reflexivity|].
    apply includes_suffix.
  - intros reqBody Hcalls.
    apply categorize_calls_model in Hcalls as (ts & _ & _ & _ & Hsettle).
    now rewrite Hsettle.
  - intros reqBody Hcalls.
    rewrite (categorizePdf_calls_model _ _ Hcalls), Hpdf. reflexivity.
Qed.

(** C5: when the [insights] of a parsed result is missing, is not a
    sequence, or has fewer than 3 elements, the repair step puts the
    canned 3-element generic sequence in its place, whole: nothing of
    the model's short list is kept. *)
Theorem deficient_insights_replaced_wholesale (props : list (string * value)) :
  insights_deficient (VObject props) = true ->
  Service.ensureInsights (VObject props)
  = Return (VObject (setProp "insights" (VArray Service.GENERIC_INSIGHTS) props))
  /\ insights_of (VObject (setProp "insights" (VArray Service.GENERIC_INSIGHTS) props))
     = Some Service.GENERIC_INSIGHTS
  /\ List.length Service.GENERIC_INSIGHTS = 3
  /\ (forall cats,
        lookup "categories" props = Some (VArray cats) ->
        forallb (fun c => negb (nullish c)) cats = true ->
        exists result,
          Service.repair (VObject props) = Return result /\
          insights_of result = Some Service.GENERIC_INSIGHTS).
Proof.
  intros Hd.
  split; [|split; [|split; [reflexivity|]]].
  - rewrite ensureInsights_object. unfold with_insights. now rewrite Hd.
  - unfold insights_of. now rewrite lookup_setProp_same.
  - intros cats Hcats Hall. exists (repaired_result props cats).
    split; [exact (repair_Return _ _ Hcats Hall)|].
    unfold repaired_result, with_insights.
    replace (insights_deficient (VObject (setProp "categories" _ props)))
      with (insights_deficient (VObject props)).
    + rewrite Hd. unfold insights_of. now rewrite lookup_setProp_same.
    + unfold insights_deficient, insights_of.
      now rewrite lookup_setProp_other by discriminate.
Qed.

(** C6: the validator leaves an already valid result (every category a
    taxonomy member, [insights] a sequence of at least 3) as it is, so
    running it twice is running it once. *)
Theorem validator_idempotent_on_valid (result : value) :
  valid_result result = true ->
  Service.repair result = Return result
  /\ (r <- Service.repair result ;; Service.repair r) = Service.repair result.
Proof.
  intros Hvalid. pose proof (repair_valid _ Hvalid) as H.
  split; [exact H|]. rewrite H. cbn [bind]. exact H.
Qed.

(** C8, at the input where the code departs from it: a request whose
    sequence holds [null] is answered 500 by the handler's [catch], not
    400, and the model is not called. *)
Theorem null_element_answers_500 :
  Routes.categorize JSON_parse (Examples.body_of (VArray [VNull]))
  = Done (Routes.server_error "Categorization failed"
            (TypeError "Cannot read properties of null (reading 'description')"))
  /\ status (settle (Routes.categorize JSON_parse (Examples.body_of (VArray [VNull])))
               (Resolved ""))
     = 500
  /\ calls_model (Routes.categorize JSON_parse (Examples.body_of (VArray [VNull])))
     = false
  /\ acceptable (VArray [VNull]) = false.
Proof. repeat split. Qed.

(** C9: when the reply holds syntactically valid JSON whose [categories]
    is missing or is not a sequence, both entry points raise (the routes
    answer 500); no fallback and no repaired result is produced. *)
Theorem wrong_shape_raises (text region : string) (parsed : value) :
  bracketed_region text = Some region ->
  JSON_parse region = Some parsed ->
  categories_of parsed = None ->
  (forall transactions, exists msg,
     Service.categorizeTransactions_resume JSON_parse transactions (Resolved text)
     = Throw (Error ("Categorization failed: " ++ msg)))
  /\ (exists msg,
        Service.categorizePdfStatement_resume JSON_parse (Resolved text)
        = Throw (Error msg))
  /\ (forall reqBody,
        calls_model (Routes.categorize JSON_parse reqBody) = true ->
        status (settle (Routes.categorize JSON_parse reqBody) (Resolved text)) = 500)
  /\ (forall reqBody,
        calls_model (Routes.categorizePdf JSON_parse reqBody) = true ->
        status (settle (Routes.categorizePdf JSON_parse reqBody) (Resolved text)) = 500).
Proof.
  intros Hregion Hparse Hshape.
  assert (Hex : Service.extractJSON JSON_parse text = Return parsed).
  { now rewrite extractJSON_region, Hregion, Hparse. }
  destruct (repair_Throw _ Hshape) as [e He].
  assert (Htext : forall transactions,
    Service.categorizeTransactions_resume JSON_parse transactions (Resolved text)
    = Throw (Error ("Categorization failed: " ++ message e))).
  { intros transactions. now rewrite (text_resume_parsed _ _ _ _ Hex), He. }
  assert (Hpdf : exists msg,
    Service.categorizePdfStatement_resume JSON_parse (Resolved text)
    = Throw (Error msg)).
  { rewrite (pdf_resume_parsed _ _ _ Hex), He. cbn [try_catch].
    destruct (includes (message e) "invalid_pdf"); eauto. }
  split; [intros transactions; eauto|].
  split; [exact Hpdf|]. split.
  - intros reqBody Hcalls.
    apply categorize_calls_model in Hcalls as (ts & _ & _ & _ & Hsettle).
    now rewrite Hsettle, Htext.
  - intros reqBody Hcalls.
    rewrite (categorizePdf_calls_model _ _ Hcalls).
    destruct Hpdf as [msg ->]. reflexivity.
Qed.

End Claims.

Section FrameClaim.

(** C10, as the code has it: the category repair keeps everything but
    [category].  For a parsed object whose [categories] list has no
    [null] element, the repair step returns the object with a list of the
    same length and order in place of [categories]; each output element is
    an object whose fields other than [category] are those of the input
    element, with the same values, in the same order, and whose [category]
    is the repaired label.  That list is what both entry points return.
    When an element is [null] the step raises and no list is returned. *)
Theorem category_repair_preserves_other_fields
    (props : list (string * value)) (cats : list value) :
  lookup "categories" props = Some (VArray cats) ->
  (forallb (fun c => negb (nullish c)) cats = true ->
   exists out,
     Service.validateCategories (VObject props)
     = Return (VObject (setProp "categories" (VArray out) props))
     /\ (exists result,
           Service.repair (VObject props) = Return result
           /\ categories_of result = Some out
           /\ forall JSON_parse text region transactions,
                bracketed_region text = Some region ->
                JSON_parse region = Some (VObject props) ->
                Service.categorizeTransactions_resume JSON_parse transactions
                  (Resolved text) = Return result
                /\ Service.categorizePdfStatement_resume JSON_parse
                     (Resolved text) = Return result)
     /\ List.length out = List.length cats
     /\ forall i cat,
          nth_error cats i = Some cat ->
          exists props',
            nth_error out i = Some (VObject props')
            /\ other_fields props' = other_fields (ownProps cat)
            /\ (forall k, k <> "category" ->
                  lookup k props' = lookup k (ownProps cat))
            /\ lookup "category" props'
               = Some (VString (repaired_label (field cat "category"))))
  /\ (forallb (fun c => negb (nullish c)) cats = false ->
      (exists e, Service.validateCategories (VObject props) = Throw e)
      /\ (exists e, Service.repair (VObject props) = Throw e)).
Proof.
  intros Hcats. split.
  - intros Hall. exists (map repaired_element cats).
    split; [now apply validateCategories_Return|].
    split; [|split; [apply length_map|]].
    + exists (repaired_result props cats).
      split; [now apply repair_Return|].
      split; [apply categories_of_repaired_result|].
      intros JSON_parse text region transactions Hregion Hparse.
      assert (Hex : Service.extractJSON JSON_parse text = Return (VObject props))
        by (now rewrite extractJSON_region, Hregion, Hparse).
      rewrite (text_resume_parsed _ _ _ _ Hex), (pdf_resume_parsed _ _ _ Hex).
      now rewrite (repair_Return _ _ Hcats Hall).
    + intros i cat Hnth. eexists.
      split; [apply (map_nth_error repaired_element _ _ Hnth)|].
      split; [apply other_fields_setProp|].
      split; [intros k Hk; now apply lookup_setProp_other|].
      apply lookup_setProp_same.
  - intros Hnull.
    destruct (validateCategories_null _ _ Hcats Hnull) as [e He].
    split; [now exists e|]. exists e. unfold Service.repair. now rewrite He.
Qed.

End FrameClaim.


Section Witnesses.

Import Examples.

Lemma extraction_failure_yields_fallback_witness :
  extraction_fails RefParser.JSON_parse malformed
  /\ Service.categorizeTransactions_resume RefParser.JSON_parse
       (VArray two_transactions) (Resolved malformed)
     = Return (text_fallback two_transactions)
  /\ Service.categorizePdfStatement_resume RefParser.JSON_parse (Resolved malformed)
     = Return pdf_fallback
  /\ settle (Routes.categorize RefParser.JSON_parse (body_of (VArray two_transactions)))
            (Resolved malformed)
     = Routes.ok (text_fallback two_transactions).
Proof.
  assert (Hfail : extraction_fails RefParser.JSON_parse malformed).
  { right. eexists. split.
    - vm_compute. reflexivity.
    - vm_compute. reflexivity. }
  destruct (extraction_failure_yields_fallback RefParser.JSON_parse malformed Hfail)
    as (Htext & Hpdf & Hroute & _).
  split; [exact Hfail|].
  split; [apply Htext; reflexivity|].
  split; [exact Hpdf|].
  destruct (Hroute (body_of (VArray two_transactions)) eq_refl) as (ts & Hd & Hs).
  vm_compute in Hd. injection Hd as <-. exact Hs.
Defined.


Lemma returned_insights_at_least_three_witness :
  exists insights,
    insights_of repaired_foodstuffs = Some insights /\ 3 <= List.length insights.
Proof.
  apply (returned_insights_at_least_three RefParser.JSON_parse
           (VArray two_transactions) (Resolved reply_foodstuffs)
           repaired_foodstuffs).
  left. vm_compute. reflexivity.
Defined.

(** The counterexample to C4 as the specification words it: in document
    mode a cause containing [invalid_pdf] is replaced, not included. *)
Lemma document_mode_hides_invalid_pdf_cause :
  Service.categorizePdfStatement_resume RefParser.JSON_parse
    (Rejected "400 invalid_request_error: invalid_pdf")
  = Throw (Error "Invalid PDF file. Please upload a valid bank statement PDF.")
  /\ includes "Invalid PDF file. Please upload a valid bank statement PDF."
              "400 invalid_request_error: invalid_pdf" = false
  /\ ~ surfaces_cause (Service.categorizePdfStatement_resume RefParser.JSON_parse).
Proof.
  split; [reflexivity|]. split; [reflexivity|].
  intros H. destruct (H "400 invalid_request_error: invalid_pdf") as (e & He & Hin).
  vm_compute in He. injection He as <-. vm_compute in Hin. discriminate.
Qed.

Lemma provider_failure_raises_witness :
  includes "connect ECONNREFUSED 127.0.0.1:443" "invalid_pdf" = false
  /\ exists e,
       Service.categorizePdfStatement_resume RefParser.JSON_parse
         (Rejected "connect ECONNREFUSED 127.0.0.1:443") = Throw e
       /\ includes (message e) "connect ECONNREFUSED 127.0.0.1:443" = true.
Proof.
  split; [reflexivity|].
  apply (provider_failure_raises RefParser.JSON_parse (VArray two_transactions)
           "connect ECONNREFUSED 127.0.0.1:443").
  reflexivity.
Defined.

Lemma deficient_insights_replaced_wholesale_witness :
  insights_deficient parsed_foodstuffs = true
  /\ exists result,
       Service.repair parsed_foodstuffs = Return result /\
       insights_of result = Some Service.GENERIC_INSIGHTS.
Proof.
  split; [reflexivity|].
  eapply (deficient_insights_replaced_wholesale (ownProps parsed_foodstuffs)).
  - reflexivity.
  - reflexivity.
  - reflexivity.
Defined.

Lemma validator_idempotent_on_valid_witness :
  valid_result parsed_valid = true
  /\ Service.repair parsed_valid = Return parsed_valid.
Proof.
  split; [reflexivity|].
  apply (validator_idempotent_on_valid parsed_valid). reflexivity.
Defined.

Lemma wrong_shape_raises_witness :
  exists msg,
    Service.categorizePdfStatement_resume RefParser.JSON_parse
      (Resolved reply_no_categories)
    = Throw (Error msg).
Proof.
  eapply (wrong_shape_raises RefParser.JSON_parse reply_no_categories).
  - vm_compute. reflexivity.
  - vm_compute. reflexivity.
  - reflexivity.
Defined.

(** The counterexample to C10 as the specification words it: for a
    parsed list that holds [null] the step returns no list at all. *)
Lemma null_element_returns_no_list :
  lookup "categories" null_element_props
  = Some (VArray [VObject [("category", VString "Pets")]; VNull])
  /\ Service.validateCategories (VObject null_element_props)
     = Throw (TypeError "Cannot read properties of null (reading 'category')")
  /\ Service.categorizeTransactions_resume RefParser.JSON_parse
       (VArray two_transactions) (Resolved reply_null_element)
     = Throw (Error
         "Categorization failed: Cannot read properties of null (reading 'category')")
  /\ ~ (exists result out,
          Service.validateCategories (VObject null_element_props) = Return result
          /\ categories_of result = Some out
          /\ List.length out = 2).
Proof.
  split; [reflexivity|]. split; [reflexivity|].
  split; [vm_compute; reflexivity|].
  intros (result & out & H & _). discriminate H.
Qed.

Lemma category_repair_preserves_other_fields_witness :
  Service.validateCategories parsed_foodstuffs
  = Return (VObject (setProp "categories"
                       (VArray (array_elements_of repaired_foodstuffs))
                       (ownProps parsed_foodstuffs)))
  /\ Service.categorizeTransactions_resume RefParser.JSON_parse
       (VArray two_transactions) (Resolved reply_foodstuffs)
     = Return repaired_foodstuffs
  /\ List.length (array_elements_of repaired_foodstuffs)
     = List.length (array_elements_of parsed_foodstuffs)
  /\ exists props,
       nth_error (array_elements_of repaired_foodstuffs) 1 = Some (VObject props)
       /\ lookup "note" props = Some (VBool true)
       /\ lookup "category" props = Some (VString "Other").
Proof.
  destruct (category_repair_preserves_other_fields
              (ownProps parsed_foodstuffs) (array_elements_of parsed_foodstuffs)
              eq_refl)
    as [Hframe _].
  destruct (Hframe eq_refl) as (out & Hstep & (result & Hrep & Hcats & Hentry)
                                & Hlen & Hfields).
  assert (Hout : out = array_elements_of repaired_foodstuffs).
  { vm_compute in Hstep. injection Hstep as <-. reflexivity. }
  subst out.
  assert (Hresult : result = repaired_foodstuffs).
  { vm_compute in Hrep. now injection Hrep as <-. }
  subst result.
  split; [exact Hstep|].
  split.
  - assert (Hreply : exists region,
              bracketed_region reply_foodstuffs = Some region
              /\ RefParser.JSON_parse region = Some parsed_foodstuffs).
    { eexists. split.
      - vm_compute. reflexivity.
      - vm_compute. reflexivity. }
    destruct Hreply as (region & Hregion & Hparse).
    destruct (Hentry RefParser.JSON_parse reply_foodstuffs region
                (VArray two_transactions) Hregion Hparse) as [Htext _].
    exact Htext.
  - split; [exact Hlen|].
    destruct (Hfields 1 _ eq_refl) as (props & Hnth & _ & Hother & Hcat).
    exists props. split; [exact Hnth|].
    split; [rewrite Hother by discriminate; reflexivity | exact Hcat].
Defined.

End Witnesses.

(* ===================================================================== *)
(** ** Further properties: the extractor                                 *)
(* ===================================================================== *)

Section RegionShape.

Lemma string_app_assoc (a b c : string) : (a ++ b) ++ c = a ++ (b ++ c).
Proof. induction a as [|d a IH]; simpl; [reflexivity | now rewrite IH]. Qed.

Lemma string_app_empty_r (a : string) : a ++ "" = a.
Proof. induction a as [|d a IH]; simpl; [reflexivity | now rewrite IH]. Qed.

Lemma lastIndexOf_absent c s : occurs c s = false -> lastIndexOf c s = None.
Proof.
  induction s as [|d s IH]; simpl; [reflexivity|].
  intros H. apply orb_false_iff in H as [Hd Hs].
  now rewrite (IH Hs), Hd.
Qed.

Lemma lastIndexOf_app c body post :
  occurs c post = false ->
  lastIndexOf c (body ++ String c post) = Some (String.length body).
Proof.
  intros Hpost. induction body as [|d body IH]; simpl.
  - now rewrite (lastIndexOf_absent _ _ Hpost), Ascii.eqb_refl.
  - now rewrite IH.
Qed.

Lemma lastIndexOf_split c s j :
  lastIndexOf c s = Some j ->
  exists body post,
    s = body ++ String c post /\ String.length body = j /\ occurs c post = false.
Proof.
  revert j. induction s as [|d s IH]; simpl; intros j H; [discriminate|].
  destruct (lastIndexOf c s) as [j'|] eqn:Hlast.
  - injection H as <-.
    destruct (IH j' eq_refl) as (body & post & -> & Hlen & Hpost).
    exists (String d body), post. simpl. now rewrite Hlen.
  - destruct (Ascii.eqb_spec c d) as [->|Hcd]; [|discriminate].
    injection H as <-. exists EmptyString, s.
    repeat split.
    clear IH. induction s as [|e s IHs]; simpl in *; [reflexivity|].
    destruct (lastIndexOf d s); [discriminate|].
    destruct (Ascii.eqb d e); [discriminate|]. now apply IHs.
Qed.

Lemma substring_prefix a b :
  substring 0 (String.length a) (a ++ b) = a.
Proof.
  induction a as [|c a IH]; simpl.
  - now destruct b.
  - now rewrite IH.
Qed.

Lemma substring_through c body post :
  substring 0 (S (String.length body)) (body ++ String c post)
  = body ++ String c EmptyString.
Proof.
  induction body as [|d body IH]; simpl.
  - now destruct post.
  - now rewrite <- IH.
Qed.

(** Prose without [{] before and without [}] after is dropped. *)
Lemma exec_wrapped pre body post :
  occurs "{" pre = false ->
  occurs "}" post = false ->
  Regex.exec Service.JSON_REGION (pre ++ braced body ++ post) = Some (braced body).
Proof.
  intros Hpre Hpost. induction pre as [|d pre IH].
  - cbn [append braced Regex.exec]. rewrite match_here_JSON_REGION.
    rewrite Ascii.eqb_refl.
    replace ((body ++ "}") ++ post) with (body ++ String "}" post)
      by (now rewrite string_app_assoc).
    rewrite (lastIndexOf_app _ _ _ Hpost), substring_through. reflexivity.
  - cbn [occurs] in Hpre. apply orb_false_iff in Hpre as [Hd Hpre].
    cbn [append Regex.exec]. rewrite match_here_JSON_REGION, Hd.
    now apply IH.
Qed.

Lemma exec_unwrap text region :
  Regex.exec Service.JSON_REGION text = Some region ->
  exists pre body post,
    text = pre ++ braced body ++ post /\ region = braced body /\
    occurs "{" pre = false /\ occurs "}" post = false.
Proof.
  revert region. induction text as [|d s IH]; intros region H; [discriminate|].
  cbn [Regex.exec] in H. rewrite match_here_JSON_REGION in H.
  destruct (Ascii.eqb "{" d) eqn:Hd.
  - destruct (lastIndexOf "}" s) as [j|] eqn:Hlast.
    + injection H as <-. apply Ascii.eqb_eq in Hd. subst d.
      destruct (lastIndexOf_split _ _ _ Hlast) as (body & post & -> & <- & Hpost).
      exists EmptyString, body, post.
      rewrite substring_through. unfold braced. cbn [append].
      now rewrite string_app_assoc.
    + rewrite exec_JSON_REGION in H. unfold bracketed_region in H.
      rewrite Hlast in H. now destruct (indexOf "{" s).
  - destruct (IH _ H) as (pre & body & post & -> & -> & Hpre & Hpost).
    exists (String d pre), body, post. cbn [append occurs].
    now rewrite Hd, Hpre.
Qed.

End RegionShape.

Section ExtractorExtras.

Variable JSON_parse : string -> option value.

(** X1: the extractor tolerates prose around the JSON.  The pattern
    matches [region] in a reply exactly when the reply is some prose
    without [{], then [region], which opens with [{] and closes with [}],
    then prose without [}]; a reply so built is parsed as its bracketed
    piece alone. *)
Theorem extractor_drops_surrounding_prose (text region : string) :
  (Regex.exec Service.JSON_REGION text = Some region <->
   exists pre body post,
     text = pre ++ braced body ++ post /\ region = braced body /\
     occurs "{" pre = false /\ occurs "}" post = false)
  /\ (forall pre body post,
        occurs "{" pre = false ->
        occurs "}" post = false ->
        Service.extractJSON JSON_parse (pre ++ braced body ++ post)
        = match JSON_parse (braced body) with
          | Some result => Return result
          | None => Throw (SyntaxError "JSON.parse")
          end).
Proof.
  split.
  - split; [apply exec_unwrap|].
    intros (pre & body & post & -> & -> & Hpre & Hpost).
    now apply exec_wrapped.
  - intros pre body post Hpre Hpost. unfold Service.extractJSON.
    now rewrite (exec_wrapped _ _ _ Hpre Hpost).
Qed.

(** X2: extraction is stable: the pattern applied to the region it
    selected selects the whole of it again, so extracting from an
    extracted region parses the same text. *)
Theorem extracted_region_is_stable (text region : string) :
  Regex.exec Service.JSON_REGION text = Some region ->
  Regex.exec Service.JSON_REGION region = Some region
  /\ Service.extractJSON JSON_parse region = Service.extractJSON JSON_parse text.
Proof.
  intros H.
  assert (Hregion : Regex.exec Service.JSON_REGION region = Some region).
  { apply exec_unwrap in H as (pre & body & post & _ & -> & _ & _).
    pose proof (exec_wrapped EmptyString body EmptyString eq_refl eq_refl) as E.
    cbn [append] in E. now rewrite string_app_empty_r in E. }
  split; [exact Hregion|].
  unfold Service.extractJSON. now rewrite Hregion, H.
Qed.

End ExtractorExtras.

(* ===================================================================== *)
(** ** Further properties: the validator                                 *)
(* ===================================================================== *)

Section ValidatorExtras.

Lemma setProp_absent k v props :
  lookup k props = None -> setProp k v props = (props ++ [(k, v)])%list.
Proof.
  induction props as [|[k0 v0] rest IH]; simpl; [reflexivity|].
  destruct (String.eqb k k0); [discriminate|].
  intros H. now rewrite IH.
Qed.

Lemma keys_setProp_present k v v0 props :
  lookup k props = Some v0 -> map fst (setProp k v props) = map fst props.
Proof.
  induction props as [|[k1 v1] rest IH]; simpl; [discriminate|].
  destruct (String.eqb_spec k k1) as [->|Hk]; [reflexivity|].
  intros H. simpl. now rewrite IH.
Qed.

Lemma ownProps_non_object_named cat k :
  match cat with VObject _ => false | _ => true end = true ->
  Regex.all_in_class
    (fun c => (48 <=? N_of_ascii c)%N && (N_of_ascii c <=? 57)%N) k = false ->
  lookup k (ownProps cat) = None.
Proof.
  destruct cat as [| |b|x|s|elems|props]; intros Hobj Hk;
    try discriminate; try reflexivity;
    apply lookup_indexed_named; exact Hk.
Qed.

Lemma mapM_repairCategory_Throw cats :
  forallb (fun c => negb (nullish c)) cats = false ->
  exists e, mapM Service.repairCategory cats = Throw e.
Proof.
  intros H. destruct (mapM Service.repairCategory cats) as [out|e] eqn:Hm.
  - apply mapM_repairCategory_inv in Hm as [Hall _]. congruence.
  - now exists e.
Qed.

Lemma repair_null_element props cats :
  lookup "categories" props = Some (VArray cats) ->
  forallb (fun c => negb (nullish c)) cats = false ->
  exists e, Service.repair (VObject props) = Throw e.
Proof.
  intros Hcats Hnull.
  destruct (Service.repair (VObject props)) as [r|e] eqn:H; [|now exists e].
  apply repair_inv in H as (props' & cats' & [= <-] & Hl & Hall & _).
  rewrite Hcats in Hl. injection Hl as <-. congruence.
Qed.

(** X3: the validator is idempotent on everything it returns, not only
    on inputs that were already valid: its output always satisfies the
    output contract and is a fixed point. *)
Theorem validator_output_is_fixed_point (result result' : value) :
  Service.repair result = Return result' ->
  valid_result result' = true
  /\ Service.repair result' = Return result'.
Proof.
  intros H. pose proof (repair_returns_valid _ _ H) as Hvalid.
  split; [exact Hvalid | now apply repair_valid].
Qed.

(** X4: the validator touches two fields and nothing else.  Every other
    top-level field of the parsed object is returned as the model sent
    it; an [insights] sequence of 3 or more is returned as it is, whatever
    its length and whatever its elements are; the fields keep their order,
    [insights] being added last when the object had none. *)
Theorem validator_keeps_other_top_level_fields
    (props : list (string * value)) (cats : list value) :
  lookup "categories" props = Some (VArray cats) ->
  forallb (fun c => negb (nullish c)) cats = true ->
  exists props',
    Service.repair (VObject props) = Return (VObject props')
    /\ (forall k, k <> "categories" -> k <> "insights" ->
          lookup k props' = lookup k props)
    /\ (forall insights,
          lookup "insights" props = Some (VArray insights) ->
          3 <= List.length insights ->
          lookup "insights" props' = Some (VArray insights))
    /\ map fst props'
       = match lookup "insights" props with
         | Some _ => map fst props
         | None => (map fst props ++ ["insights"])%list
         end.
Proof.
  intros Hcats Hall. rewrite (repair_Return _ _ Hcats Hall).
  unfold repaired_result, with_insights, insights_deficient, insights_of.
  set (props1 := setProp "categories" (VArray (map repaired_element cats)) props).
  assert (Hins : lookup "insights" props1 = lookup "insights" props)
    by (apply lookup_setProp_other; discriminate).
  assert (Hkeys1 : map fst props1 = map fst props)
    by (eapply keys_setProp_present; eassumption).
  rewrite Hins.
  destruct (lookup "insights" props) as [v|] eqn:Hv.
  - assert (Hset : map fst (setProp "insights" (VArray Service.GENERIC_INSIGHTS) props1)
                   = map fst props).
    { rewrite <- Hkeys1. eapply keys_setProp_present. rewrite Hins. reflexivity. }
    assert (Hother : forall w k, k <> "categories" -> k <> "insights" ->
              lookup k (setProp "insights" w props1) = lookup k props).
    { intros w k Hk1 Hk2. rewrite lookup_setProp_other by assumption.
      now apply lookup_setProp_other. }
    destruct v as [| |b|x|s|ins|p];
      try (eexists; split; [reflexivity|];
           split; [apply Hother|]; split; [discriminate | exact Hset]).
    destruct (Nat.ltb_spec (List.length ins) 3) as [Hshort|Hlong].
    + eexists. split; [reflexivity|]. split; [apply Hother|].
      split; [|exact Hset]. intros ins' [= <-] Hlen. lia.
    + eexists. split; [reflexivity|].
      split; [intros k Hk1 Hk2; now apply lookup_setProp_other|].
      split; [|exact Hkeys1]. intros ins' [= <-] _. exact Hins.
  - eexists. split; [reflexivity|].
    split; [intros k Hk1 Hk2; rewrite lookup_setProp_other by assumption;
            now apply lookup_setProp_other|].
    split; [discriminate|].
    rewrite setProp_absent by exact Hins.
    now rewrite map_app, Hkeys1.
Qed.

(** X5: an element that has no [category] field of its own, which is
    the case of every element that is not an object (a number, a string,
    a boolean, an array), comes back as an object with its own fields
    followed by [category: Other]; an element that has one keeps its
    fields in their order.  This is what the arrow function returns and
    what the validator returns at that position of the list. *)
Theorem element_without_category_gets_other (cat : value) :
  nullish cat = false ->
  (lookup "category" (ownProps cat) = None ->
   Service.repairCategory cat
   = Return (VObject (ownProps cat ++ [("category", VString "Other")])%list))
  /\ (match cat with VObject _ => false | _ => true end = true ->
      lookup "category" (ownProps cat) = None)
  /\ (forall v,
        lookup "category" (ownProps cat) = Some v ->
        exists props',
          Service.repairCategory cat = Return (VObject props')
          /\ map fst props' = keys cat)
  /\ (forall props cats i,
        lookup "categories" props = Some (VArray cats) ->
        forallb (fun c => negb (nullish c)) cats = true ->
        nth_error cats i = Some cat ->
        exists result out,
          Service.repair (VObject props) = Return result
          /\ categories_of result = Some out
          /\ (lookup "category" (ownProps cat) = None ->
              nth_error out i
              = Some (VObject (ownProps cat ++ [("category", VString "Other")])%list))
          /\ (forall v,
                lookup "category" (ownProps cat) = Some v ->
                exists props',
                  nth_error out i = Some (VObject props')
                  /\ map fst props' = keys cat)).
Proof.
  intros Hcat. rewrite (repairCategory_Return _ Hcat).
  assert (Habsent : lookup "category" (ownProps cat) = None ->
            repaired_element cat
            = VObject (ownProps cat ++ [("category", VString "Other")])%list).
  { intros Hnone. unfold repaired_element, field. rewrite Hnone.
    cbn [repaired_label]. now rewrite (setProp_absent _ _ _ Hnone). }
  split; [|split; [|split]].
  - intros Hnone. now rewrite (Habsent Hnone).
  - intros Hobj. now apply ownProps_non_object_named.
  - intros v Hv. eexists. split; [reflexivity|].
    eapply keys_setProp_present. exact Hv.
  - intros props cats i Hcats Hall Hnth.
    exists (repaired_result props cats), (map repaired_element cats).
    split; [now apply repair_Return|].
    split; [apply categories_of_repaired_result|].
    rewrite (map_nth_error repaired_element _ _ Hnth). split.
    + intros Hnone. now rewrite (Habsent Hnone).
    + intros v Hv. eexists. split; [reflexivity|].
      eapply keys_setProp_present. exact Hv.
Qed.

End ValidatorExtras.

(* ===================================================================== *)
(** ** Further properties: the entry points                              *)
(* ===================================================================== *)

Section EntryPointExtras.

Variable JSON_parse : string -> option value.

Lemma text_resume_Throw_inv transactions o e :
  Service.categorizeTransactions_resume JSON_parse transactions o = Throw e ->
  exists m, e = Error ("Categorization failed: " ++ m).
Proof.
  unfold Service.categorizeTransactions_resume, try_catch. intros H.
  match type of H with
  | match ?body with _ => _ end = _ => destruct body as [r|e0]
  end; [discriminate|].
  injection H as <-. now exists (message e0).
Qed.

Lemma extract_Return text region parsed :
  bracketed_region text = Some region ->
  JSON_parse region = Some parsed ->
  Service.extractJSON JSON_parse text = Return parsed.
Proof. intros Hr Hp. now rewrite extractJSON_region, Hr, Hp. Qed.

(** What the two repair statements can throw never mentions
    [invalid_pdf]. *)
Lemma repair_Throw_message result e :
  Service.repair result = Throw e ->
  includes (message e) "invalid_pdf" = false.
Proof.
  unfold Service.repair. intros H.
  destruct (Service.validateCategories result) as [r1|e1] eqn:Hv.
  - cbn [bind] in H.
    apply validateCategories_inv in Hv as (props & cats & _ & _ & _ & ->).
    rewrite ensureInsights_object in H. discriminate.
  - cbn [bind] in H. injection H as <-.
    pose proof (validateCategories_non_object result) as Hno.
    destruct result as [| |b|x|s|elems|props];
      try (rewrite Hno in Hv; injection Hv as <-; reflexivity).
    unfold Service.validateCategories in Hv. cbn [getProp ownProps bind] in Hv.
    destruct (lookup "categories" props) as [v|];
      [|cbn in Hv; injection Hv as <-; reflexivity].
    destruct v as [| |b|x|s|cats|p];
      try (cbn in Hv; injection Hv as <-; reflexivity).
    cbn [callMap] in Hv.
    destruct (mapM Service.repairCategory cats) as [out|e2] eqn:Hm;
      [cbn in Hv; discriminate|].
    cbn [bind] in Hv. injection Hv as <-.
    clear - Hm. revert Hm. induction cats as [|c cats IH]; cbn [mapM];
      [discriminate|].
    destruct (nullish c) eqn:Hc.
    + destruct c; try discriminate; cbn; intros [= <-]; reflexivity.
    + rewrite (repairCategory_Return _ Hc).
      destruct (mapM Service.repairCategory cats); [discriminate|].
      intros [= <-]. now apply IH.
Qed.

(** X6: when the reply parses, the caller's transactions play no part
    in the outcome: the result is the model's list, repaired, whatever
    was sent, and both entry points return the same results. *)
Theorem parsed_reply_ignores_transactions
    (text region : string) (parsed : value) :
  bracketed_region text = Some region ->
  JSON_parse region = Some parsed ->
  (forall transactions transactions',
     Service.categorizeTransactions_resume JSON_parse transactions (Resolved text)
     = Service.categorizeTransactions_resume JSON_parse transactions' (Resolved text))
  /\ (forall transactions result,
        Service.categorizeTransactions_resume JSON_parse transactions (Resolved text)
        = Return result <->
        Service.categorizePdfStatement_resume JSON_parse (Resolved text)
        = Return result)
  /\ (forall transactions result,
        Service.categorizeTransactions_resume JSON_parse transactions (Resolved text)
        = Return result ->
        Service.repair parsed = Return result).
Proof.
  intros Hr Hp. pose proof (extract_Return _ _ _ Hr Hp) as Hex.
  split; [|split].
  - intros t t'. now rewrite !(text_resume_parsed _ _ _ _ Hex).
  - intros t result.
    rewrite (text_resume_parsed _ _ _ _ Hex), (pdf_resume_parsed _ _ _ Hex).
    destruct (Service.repair parsed) as [r|e]; cbn [try_catch].
    + reflexivity.
    + destruct (includes (message e) "invalid_pdf"); split; discriminate.
  - intros t result. rewrite (text_resume_parsed _ _ _ _ Hex).
    destruct (Service.repair parsed); cbn [try_catch]; [auto | discriminate].
Qed.

(** X7: the older copy of the service differs from the current one in
    one way only.  On a failed model call and on every reply that parses
    the two give the same outcome; on a reply without parseable JSON the
    older copy raises [Categorization failed: ...] where the current one
    returns its fallback. *)
Theorem older_copy_differs_only_on_extraction_failure (transactions : value) :
  (forall cause,
     Legacy.categorizeTransactions_resume JSON_parse transactions (Rejected cause)
     = Service.categorizeTransactions_resume JSON_parse transactions (Rejected cause))
  /\ (forall text region parsed,
        bracketed_region text = Some region ->
        JSON_parse region = Some parsed ->
        Legacy.categorizeTransactions_resume JSON_parse transactions (Resolved text)
        = Service.categorizeTransactions_resume JSON_parse transactions (Resolved text))
  /\ (forall text,
        extraction_fails JSON_parse text ->
        (exists msg,
           Legacy.categorizeTransactions_resume JSON_parse transactions (Resolved text)
           = Throw (Error ("Categorization failed: " ++ msg)))
        /\ forall ts,
             transactions = VArray ts ->
             forallb (fun t => negb (nullish t)) ts = true ->
             Service.categorizeTransactions_resume JSON_parse transactions (Resolved text)
             = Return (text_fallback ts)).
Proof.
  split; [reflexivity|]. split.
  - intros text region parsed Hr Hp.
    rewrite (text_resume_parsed _ _ _ _ (extract_Return _ _ _ Hr Hp)).
    unfold Legacy.categorizeTransactions_resume.
    now rewrite exec_JSON_REGION, Hr, Hp.
  - intros text Hfail.
    split; [now apply legacy_extraction_failure_raises|].
    intros ts -> Hts. now apply text_resume_fallback.
Qed.

(** X8: one [null] among the model's categories fails the whole request:
    both entry points raise, nothing of the other elements is returned,
    and the routes answer 500. *)
Theorem null_category_element_raises
    (text region : string) (props : list (string * value)) (cats : list value) :
  bracketed_region text = Some region ->
  JSON_parse region = Some (VObject props) ->
  lookup "categories" props = Some (VArray cats) ->
  forallb (fun c => negb (nullish c)) cats = false ->
  (forall transactions, exists msg,
     Service.categorizeTransactions_resume JSON_parse transactions (Resolved text)
     = Throw (Error ("Categorization failed: " ++ msg)))
  /\ (exists msg,
        Service.categorizePdfStatement_resume JSON_parse (Resolved text)
        = Throw (Error ("PDF processing failed: " ++ msg)))
  /\ (forall reqBody,
        calls_model (Routes.categorize JSON_parse reqBody) = true ->
        status (answer (Routes.categorize JSON_parse reqBody) (Resolved text)) = 500).
Proof.
  intros Hr Hp Hcats Hnull. pose proof (extract_Return _ _ _ Hr Hp) as Hex.
  destruct (repair_null_element _ _ Hcats Hnull) as [e He].
  assert (Htext : forall transactions,
    Service.categorizeTransactions_resume JSON_parse transactions (Resolved text)
    = Throw (Error ("Categorization failed: " ++ message e))).
  { intros t. now rewrite (text_resume_parsed _ _ _ _ Hex), He. }
  split; [intros t; eauto|]. split.
  - exists (message e). rewrite (pdf_resume_parsed _ _ _ Hex), He.
    cbn [try_catch]. now rewrite (repair_Throw_message _ _ He).
  - intros reqBody Hcalls. unfold answer.
    apply categorize_calls_model in Hcalls as (ts & _ & _ & _ & Hsettle).
    now rewrite Hsettle, Htext.
Qed.

(** X9: the document entry point raises its fixed [Invalid PDF file]
    message exactly when the model call itself failed with a cause that
    contains [invalid_pdf]; no reply of the model can produce it. *)
Theorem invalid_pdf_message_only_from_provider (o : provider_outcome) :
  Service.categorizePdfStatement_resume JSON_parse o = Throw (Error INVALID_PDF)
  <-> exists cause, o = Rejected cause /\ includes cause "invalid_pdf" = true.
Proof.
  split.
  - destruct o as [text|cause]; intros H.
    + exfalso. unfold Service.categorizePdfStatement_resume in H.
      destruct (Service.extractJSON JSON_parse text) as [parsed|e0];
        cbn [try_catch bind] in H.
      * destruct (Service.repair parsed) as [r|e] eqn:Hrep; [discriminate|].
        cbn [try_catch] in H.
        rewrite (repair_Throw_message _ _ Hrep) in H. discriminate.
      * fold pdf_fallback in H.
        rewrite (repair_valid _ valid_pdf_fallback) in H. discriminate.
    + exists cause. split; [reflexivity|].
      unfold Service.categorizePdfStatement_resume in H.
      cbn [try_catch message] in H.
      destruct (includes cause "invalid_pdf"); [reflexivity | discriminate].
  - intros (cause & -> & Hin).
    unfold Service.categorizePdfStatement_resume. cbn [try_catch message].
    now rewrite Hin.
Qed.

End EntryPointExtras.

(* ===================================================================== *)
(** ** Further properties: the routes                                    *)
(* ===================================================================== *)

Section RouteExtras.

Variable JSON_parse : string -> option value.

Lemma checkEach_Some ts r :
  Routes.checkEach ts = Return (Some r) ->
  r = Routes.invalid_request EACH_TRANSACTION.
Proof.
  induction ts as [|t ts IH]; cbn [Routes.checkEach]; [discriminate|].
  destruct (getProp t "description") as [d|e]; [|discriminate]. cbn [bind].
  destruct (negb (truthy d)); [now intros [= <-]|].
  destruct (getProp t "amount") as [a|e]; [|discriminate]. cbn [bind].
  destruct (negb (typeof_number a)); [now intros [= <-] | exact IH].
Qed.

Lemma validateTransactions_Some transactions r :
  Routes.validateTransactions transactions = Return (Some r) ->
  exists msg, r = Routes.invalid_request msg.
Proof.
  unfold Routes.validateTransactions.
  destruct (negb (truthy transactions) || negb (isArray transactions));
    [intros [= <-]; eauto|].
  destruct (array_length transactions =? 0)%nat; [intros [= <-]; eauto|].
  destruct (1000 <? N.of_nat (array_length transactions))%N;
    [intros [= <-]; eauto|].
  intros H. apply checkEach_Some in H. eauto.
Qed.

Lemma checkEach_first_offender pre t rest :
  forallb (fun x => negb (offends x)) pre = true ->
  offends t = true ->
  Routes.checkEach (pre ++ t :: rest)%list =
  if nullish t
  then Throw (TypeError ("Cannot read properties of " ++ describe_nullish t
                           ++ " (reading 'description')"))
  else Return (Some (Routes.invalid_request EACH_TRANSACTION)).
Proof.
  intros Hpre Ht. induction pre as [|p pre IH]; cbn [app Routes.checkEach].
  - unfold offends in Ht. destruct (nullish t) eqn:Hn.
    + destruct t; try discriminate; reflexivity.
    + cbn [orb] in Ht. apply negb_true_iff in Ht.
      rewrite !(getProp_field _ _ Hn). cbn [bind].
      unfold well_formed_transaction in Ht.
      destruct (truthy (field t "description")); cbn [negb andb] in *;
        [|reflexivity].
      now rewrite Ht.
  - cbn [forallb] in Hpre. apply andb_true_iff in Hpre as [Hp Hpre].
    apply negb_true_iff in Hp. unfold offends in Hp.
    apply orb_false_iff in Hp as [Hn Hw]. apply negb_false_iff in Hw.
    rewrite !(getProp_field _ _ Hn). cbn [bind].
    unfold well_formed_transaction in Hw.
    apply andb_true_iff in Hw as [-> ->]. cbn [negb]. now apply IH.
Qed.

Lemma checkEach_no_offender ts :
  forallb (fun x => negb (offends x)) ts = true ->
  Routes.checkEach ts = Return None.
Proof.
  intros H.
  assert (Hnn : forallb (fun t => negb (nullish t)) ts = true
                /\ forallb well_formed_transaction ts = true).
  { induction ts as [|t ts IH]; cbn [forallb] in *; [now split|].
    apply andb_true_iff in H as [Ht Hts]. destruct (IH Hts) as [-> ->].
    apply negb_true_iff in Ht. unfold offends in Ht.
    apply orb_false_iff in Ht as [-> Hw]. apply negb_false_iff in Hw.
    now rewrite Hw. }
  destruct Hnn as [Hnn Hwf]. now rewrite (checkEach_not_nullish _ Hnn), Hwf.
Qed.

Lemma all_in_class_occurs cls c s :
  occurs c s = true -> cls c = false -> Regex.all_in_class cls s = false.
Proof.
  induction s as [|d s IH]; cbn [occurs Regex.all_in_class]; [discriminate|].
  intros H Hc. apply orb_true_iff in H as [H|H].
  - apply Ascii.eqb_eq in H. subst d. now rewrite Hc.
  - rewrite (IH H Hc). apply andb_false_r.
Qed.

(** The character class of the document route, spelled out. *)
Lemma base64_class_alphabet c :
  Routes.base64_class c =
  existsb (Ascii.eqb c)
    (list_ascii_of_string
       "ABCDEFGHIJKLMNOPQRSTUVWXYZabcdefghijklmnopqrstuvwxyz0123456789+/=").
Proof. destruct c as [[] [] [] [] [] [] [] []]; reflexivity. Qed.

(** X10: what a caller of the text route can receive.  The status is
    200, 400 or 500.  A 200 always carries a result that satisfies the
    output contract (every category in the taxonomy, at least 3
    insights).  A 400 is only ever answered without calling the model.
    After the model was called, a failure is a 500 whose message starts
    with [Categorization failed: ]. *)
Theorem text_route_answers (reqBody : value) (o : provider_outcome) :
  let r := answer (Routes.categorize JSON_parse reqBody) o in
  (status r = 200 \/ status r = 400 \/ status r = 500)
  /\ (status r = 200 ->
      calls_model (Routes.categorize JSON_parse reqBody) = true
      /\ valid_result (body r) = true)
  /\ (status r = 400 ->
      calls_model (Routes.categorize JSON_parse reqBody) = false)
  /\ (calls_model (Routes.categorize JSON_parse reqBody) = true ->
      status r = 500 ->
      exists m,
        body r = VObject [ ("error", VString "Categorization failed");
                           ("message", VString ("Categorization failed: " ++ m)) ]).
Proof.
  cbv zeta. unfold answer.
  destruct (calls_model (Routes.categorize JSON_parse reqBody)) eqn:Hcalls.
  - destruct (categorize_calls_model _ _ Hcalls) as (ts & _ & _ & _ & Hsettle).
    rewrite Hsettle.
    destruct (Service.categorizeTransactions_resume JSON_parse (VArray ts) o)
      as [result|e] eqn:Hrun.
    + apply text_resume_Return_inv in Hrun as [parsed Hrep].
      apply repair_returns_valid in Hrep.
      cbn [Routes.ok status body]. repeat split; auto; discriminate.
    + apply text_resume_Throw_inv in Hrun as [m ->].
      cbn [Routes.server_error status body message].
      repeat split; auto; try discriminate. intros _ _. now exists m.
  - unfold Routes.categorize in *.
    destruct (Routes.destructure "req.body" reqBody "transactions")
      as [transactions|e]; cbn [bind] in *.
    + destruct (Routes.validateTransactions transactions) as [[r|]|e] eqn:Hv;
        cbn [bind] in *.
      * apply validateTransactions_Some in Hv as [msg ->].
        cbn. repeat split; auto; discriminate.
      * discriminate.
      * cbn. repeat split; auto; discriminate.
    + cbn. repeat split; auto; discriminate.
Qed.

(** X11: the same for the document route: 200, 400 or 500; every 200
    carries a result that satisfies the output contract; a 400 is only
    answered without calling the model. *)
Theorem document_route_answers (reqBody : value) (o : provider_outcome) :
  let r := answer (Routes.categorizePdf JSON_parse reqBody) o in
  (status r = 200 \/ status r = 400 \/ status r = 500)
  /\ (status r = 200 ->
      calls_model (Routes.categorizePdf JSON_parse reqBody) = true
      /\ valid_result (body r) = true)
  /\ (status r = 400 ->
      calls_model (Routes.categorizePdf JSON_parse reqBody) = false).
Proof.
  cbv zeta. unfold answer.
  destruct (calls_model (Routes.categorizePdf JSON_parse reqBody)) eqn:Hcalls.
  - rewrite (categorizePdf_calls_model _ _ Hcalls).
    destruct (Service.categorizePdfStatement_resume JSON_parse o)
      as [result|e] eqn:Hrun.
    + apply pdf_resume_Return_inv in Hrun as [parsed Hrep].
      apply repair_returns_valid in Hrep.
      cbn [Routes.ok status body]. repeat split; auto; discriminate.
    + cbn [Routes.server_error status]. repeat split; auto; discriminate.
  - unfold Routes.categorizePdf in *.
    destruct (Routes.destructure "req.body" reqBody "pdf") as [pdf|e].
    + unfold Routes.validatePdf in *.
      destruct pdf as [| |b|x|s|elems|props];
        try (cbn; repeat split; auto; discriminate).
      destruct (negb (truthy (VString s)));
        [cbn; repeat split; auto; discriminate|].
      destruct (negb (Regex.test_class_plus Routes.base64_class s));
        [cbn; repeat split; auto; discriminate | discriminate].
    + cbn. repeat split; auto; discriminate.
Qed.

(** X12: the length checks of the text route come before any element is
    looked at: an empty sequence and a sequence of more than 1000 are
    answered 400 with their own messages whatever the elements are, even
    elements that would otherwise make the handler fail. *)
Theorem text_route_length_checks_come_first (reqBody : value) (ts : list value) :
  Routes.destructure "req.body" reqBody "transactions" = Return (VArray ts) ->
  (ts = [] ->
   Routes.categorize JSON_parse reqBody
   = Done (Routes.invalid_request "transactions array cannot be empty"))
  /\ ((1000 < N.of_nat (List.length ts))%N ->
      Routes.categorize JSON_parse reqBody
      = Done (Routes.invalid_request
                "Maximum 1000 transactions allowed per request")).
Proof.
  intros Hd. unfold Routes.categorize. rewrite Hd. cbn [bind].
  unfold Routes.validateTransactions.
  cbn [truthy isArray negb orb array_length]. split.
  - intros ->. reflexivity.
  - intros Hlen. destruct (Nat.eqb_spec (List.length ts) 0) as [E|_].
    + rewrite E in Hlen. lia.
    + apply N.ltb_lt in Hlen. now rewrite Hlen.
Qed.

(** X13: for a sequence of 1 to 1000 elements the text route stops at
    the first element that is [null], has no truthy description or has a
    non-number amount, and later elements are not looked at: a [null]
    there gives 500, any other such element 400.  With no such element
    the model is called once, with budget 4096 and the transactions as
    received. *)
Theorem text_route_stops_at_first_offender (reqBody : value) (ts : list value) :
  Routes.destructure "req.body" reqBody "transactions" = Return (VArray ts) ->
  ts <> [] ->
  (N.of_nat (List.length ts) <= 1000)%N ->
  (forall pre t rest,
     ts = (pre ++ t :: rest)%list ->
     forallb (fun x => negb (offends x)) pre = true ->
     offends t = true ->
     Routes.categorize JSON_parse reqBody
     = Done (if nullish t
             then Routes.server_error "Categorization failed"
                    (TypeError ("Cannot read properties of " ++ describe_nullish t
                                  ++ " (reading 'description')"))
             else Routes.invalid_request EACH_TRANSACTION))
  /\ (forallb (fun x => negb (offends x)) ts = true ->
      exists resume,
        Routes.categorize JSON_parse reqBody
        = AwaitModel {| max_tokens := 4096%N; content := TextPrompt (VArray ts) |}
                     resume
        /\ forall o,
             resume o =
             match Service.categorizeTransactions_resume JSON_parse (VArray ts) o with
             | Return result => Routes.ok result
             | Throw error => Routes.server_error "Categorization failed" error
             end).
Proof.
  intros Hd Hne Hlen. unfold Routes.categorize. rewrite Hd. cbn [bind].
  assert (Hv : Routes.validateTransactions (VArray ts) = Routes.checkEach ts).
  { unfold Routes.validateTransactions.
    cbn [truthy isArray negb orb array_length Routes.array_elements].
    destruct (Nat.eqb_spec (List.length ts) 0) as [E|_].
    - destruct ts; [contradiction | discriminate E].
    - apply N.le_ngt in Hlen. apply N.ltb_nlt in Hlen. now rewrite Hlen. }
  rewrite Hv. split.
  - intros pre t rest -> Hpre Ht.
    rewrite (checkEach_first_offender _ _ _ Hpre Ht).
    now destruct (nullish t).
  - intros Hall. rewrite (checkEach_no_offender _ Hall). cbn [bind].
    eexists. split; reflexivity.
Qed.

(** X14: the document route checks the alphabet of [pdf] and nothing
    more.  A [pdf] that is not a string, or is empty, is answered 400
    "required"; a string with any character outside [A-Za-z0-9+/=] (a
    line break, the [data:] prefix of a data URL) is answered 400 "must
    be a valid base64 encoded string"; every other string reaches the
    model unchanged, with budget 8192, without being decoded or checked
    for padding. *)
Theorem document_route_checks_alphabet_only (reqBody pdf : value) :
  Routes.destructure "req.body" reqBody "pdf" = Return pdf ->
  (typeof_string pdf = false \/ pdf = VString "" ->
   Routes.categorizePdf JSON_parse reqBody
   = Done (Routes.invalid_request "pdf (base64 string) is required"))
  /\ (forall s c,
        pdf = VString s -> occurs c s = true -> Routes.base64_class c = false ->
        Routes.categorizePdf JSON_parse reqBody
        = Done (Routes.invalid_request "pdf must be a valid base64 encoded string"))
  /\ (forall s,
        pdf = VString s -> s <> "" ->
        Regex.all_in_class Routes.base64_class s = true ->
        exists resume,
          Routes.categorizePdf JSON_parse reqBody
          = AwaitModel {| max_tokens := 8192%N; content := DocumentPrompt s |}
                       resume
          /\ forall o,
               resume o =
               match Service.categorizePdfStatement_resume JSON_parse o with
               | Return result => Routes.ok result
               | Throw error =>
                   Routes.server_error "PDF categorization failed" error
               end).
Proof.
  intros Hd. unfold Routes.categorizePdf. rewrite Hd. split; [|split].
  - intros [Hty| ->]; [|reflexivity].
    destruct pdf; try discriminate; reflexivity.
  - intros s c -> Hocc Hc. unfold Routes.validatePdf, Regex.test_class_plus.
    rewrite (all_in_class_occurs _ _ _ Hocc Hc), andb_false_r.
    cbn [truthy negb]. destruct s as [|d s]; [discriminate Hocc | reflexivity].
  - intros s -> Hne Hall. unfold Routes.validatePdf, Regex.test_class_plus.
    rewrite Hall. destruct s as [|d s]; [contradiction|].
    cbn. eexists. split; reflexivity.
Qed.

End RouteExtras.

(* ===================================================================== *)
(** ** The further properties, on the sample inputs                      *)
(* ===================================================================== *)

Section ExtraWitnesses.

Import Examples.

Lemma extractor_drops_surrounding_prose_witness :
  Service.extractJSON RefParser.JSON_parse wrapped_reply = Return wrapped_parsed.
Proof.
  destruct (extractor_drops_surrounding_prose RefParser.JSON_parse
              wrapped_reply wrapped_reply) as [_ H].
  unfold wrapped_reply at 1. rewrite H by reflexivity.
  vm_compute. reflexivity.
Defined.

Lemma extracted_region_is_stable_witness :
  Regex.exec Service.JSON_REGION "{b}c}" = Some "{b}c}".
Proof.
  apply (extracted_region_is_stable RefParser.JSON_parse "a{b}c}d{" "{b}c}").
  reflexivity.
Defined.

Lemma validator_output_is_fixed_point_witness :
  valid_result repaired_foodstuffs = true
  /\ Service.repair repaired_foodstuffs = Return repaired_foodstuffs.
Proof.
  apply (validator_output_is_fixed_point parsed_foodstuffs repaired_foodstuffs).
  reflexivity.
Defined.

Lemma validator_keeps_other_top_level_fields_witness :
  exists props',
    Service.repair wrapped_parsed = Return (VObject props')
    /\ lookup "model" props' = Some (VString "x")
    /\ lookup "insights" props' = lookup "insights" (ownProps wrapped_parsed)
    /\ map fst props' = ["categories"; "insights"; "model"].
Proof.
  destruct (validator_keeps_other_top_level_fields (ownProps wrapped_parsed) []
              eq_refl eq_refl)
    as (props' & Hrep & Hother & Hins & Hkeys).
  exists props'. split; [exact Hrep|].
  split; [rewrite Hother by discriminate; reflexivity|].
  split; [|exact Hkeys].
  apply Hins; [reflexivity | simpl; lia].
Defined.

Lemma element_without_category_gets_other_witness :
  Service.repairCategory (VString "ab")
  = Return (VObject [ ("0", VString "a"); ("1", VString "b");
                      ("category", VString "Other") ])
  /\ (exists props',
        Service.repairCategory (nth 1 (array_elements_of parsed_foodstuffs) VNull)
        = Return (VObject props')
        /\ map fst props' = ["description"; "amount"; "category"; "note"])
  /\ exists result out,
       Service.repair
         (VObject [("categories", VArray [VBool true; VString "ab"])])
       = Return result
       /\ categories_of result = Some out
       /\ nth_error out 1
          = Some (VObject [ ("0", VString "a"); ("1", VString "b");
                            ("category", VString "Other") ]).
Proof.
  split; [|split].
  - destruct (element_without_category_gets_other (VString "ab") eq_refl)
      as (Habsent & Hnon_object & _).
    apply Habsent, Hnon_object. reflexivity.
  - destruct (element_without_category_gets_other
                (nth 1 (array_elements_of parsed_foodstuffs) VNull) eq_refl)
      as (_ & _ & Hkeep & _).
    destruct (Hkeep (VString "income") eq_refl) as (props' & Hrun & Hkeys).
    exists props'. split; [exact Hrun | exact Hkeys].
  - destruct (element_without_category_gets_other (VString "ab") eq_refl)
      as (_ & Hnon_object & _ & Hlist).
    destruct (Hlist [("categories", VArray [VBool true; VString "ab"])]
                [VBool true; VString "ab"] 1 eq_refl eq_refl eq_refl)
      as (result & out & Hrep & Hcats & Hnone & _).
    exists result, out. split; [exact Hrep|]. split; [exact Hcats|].
    apply Hnone, Hnon_object. reflexivity.
Defined.

Lemma parsed_reply_ignores_transactions_witness :
  Service.categorizeTransactions_resume RefParser.JSON_parse
    (VArray two_transactions) (Resolved reply_valid)
  = Service.categorizeTransactions_resume RefParser.JSON_parse
      (VArray []) (Resolved reply_valid)
  /\ Service.categorizePdfStatement_resume RefParser.JSON_parse (Resolved reply_valid)
     = Return parsed_valid.
Proof.
  assert (Hregion : bracketed_region reply_valid = Some reply_valid)
    by (vm_compute; reflexivity).
  assert (Hparse : RefParser.JSON_parse reply_valid = Some parsed_valid)
    by (vm_compute; reflexivity).
  destruct (parsed_reply_ignores_transactions RefParser.JSON_parse
              reply_valid reply_valid parsed_valid Hregion Hparse)
    as (Hsame & Hmodes & _).
  split; [apply Hsame|].
  apply (Hmodes (VArray two_transactions)). vm_compute. reflexivity.
Defined.

Lemma older_copy_differs_only_on_extraction_failure_witness :
  Legacy.categorizeTransactions_resume RefParser.JSON_parse
    (VArray two_transactions) (Resolved reply_foodstuffs)
  = Service.categorizeTransactions_resume RefParser.JSON_parse
      (VArray two_transactions) (Resolved reply_foodstuffs)
  /\ (exists msg,
        Legacy.categorizeTransactions_resume RefParser.JSON_parse
          (VArray two_transactions) (Resolved prose)
        = Throw (Error ("Categorization failed: " ++ msg)))
  /\ Service.categorizeTransactions_resume RefParser.JSON_parse
       (VArray two_transactions) (Resolved prose)
     = Return (text_fallback two_transactions).
Proof.
  destruct (older_copy_differs_only_on_extraction_failure RefParser.JSON_parse
              (VArray two_transactions))
    as (_ & Hparsed & Hfail).
  split.
  - eapply Hparsed.
    + vm_compute. reflexivity.
    + vm_compute. reflexivity.
  - assert (Hprose : extraction_fails RefParser.JSON_parse prose)
      by (left; vm_compute; reflexivity).
    destruct (Hfail prose Hprose) as [Hlegacy Hcurrent].
    split; [exact Hlegacy|]. now apply Hcurrent.
Defined.

Lemma null_category_element_raises_witness :
  exists msg,
    Service.categorizePdfStatement_resume RefParser.JSON_parse
      (Resolved reply_null_element)
    = Throw (Error ("PDF processing failed: " ++ msg)).
Proof.
  eapply (null_category_element_raises RefParser.JSON_parse reply_null_element
            reply_null_element null_element_props).
  - vm_compute. reflexivity.
  - vm_compute. reflexivity.
  - reflexivity.
  - reflexivity.
Defined.

Lemma invalid_pdf_message_only_from_provider_witness :
  Service.categorizePdfStatement_resume RefParser.JSON_parse
    (Rejected "400 invalid_request_error: invalid_pdf")
  = Throw (Error INVALID_PDF).
Proof.
  apply (invalid_pdf_message_only_from_provider RefParser.JSON_parse).
  exists "400 invalid_request_error: invalid_pdf". split; reflexivity.
Defined.

Lemma text_route_answers_witness :
  valid_result
    (body (answer (Routes.categorize RefParser.JSON_parse
                     (body_of (VArray two_transactions)))
                  (Resolved reply_foodstuffs))) = true
  /\ calls_model (Routes.categorize RefParser.JSON_parse (body_of (VArray [])))
     = false.
Proof.
  split.
  - apply (text_route_answers RefParser.JSON_parse
             (body_of (VArray two_transactions)) (Resolved reply_foodstuffs)).
    vm_compute. reflexivity.
  - apply (text_route_answers RefParser.JSON_parse
             (body_of (VArray [])) (Resolved reply_foodstuffs)).
    reflexivity.
Defined.

Lemma document_route_answers_witness :
  valid_result
    (body (answer (Routes.categorizePdf RefParser.JSON_parse
                     (pdf_body_of (VString pdf_payload)))
                  (Resolved malformed))) = true
  /\ calls_model (Routes.categorizePdf RefParser.JSON_parse
                    (pdf_body_of (VString pdf_data_url)))
     = false.
Proof.
  split.
  - apply (document_route_answers RefParser.JSON_parse
             (pdf_body_of (VString pdf_payload)) (Resolved malformed)).
    vm_compute. reflexivity.
  - apply (document_route_answers RefParser.JSON_parse
             (pdf_body_of (VString pdf_data_url)) (Resolved malformed)).
    vm_compute. reflexivity.
Defined.

Lemma text_route_length_checks_come_first_witness :
  Routes.categorize RefParser.JSON_parse (body_of too_many_nulls)
  = Done (Routes.invalid_request "Maximum 1000 transactions allowed per request")
  /\ Routes.categorize RefParser.JSON_parse (body_of (VArray []))
     = Done (Routes.invalid_request "transactions array cannot be empty").
Proof.
  split.
  - apply (text_route_length_checks_come_first RefParser.JSON_parse
             (body_of too_many_nulls) (repeat VNull 1001) eq_refl).
    vm_compute. reflexivity.
  - now apply (text_route_length_checks_come_first RefParser.JSON_parse
                 (body_of (VArray [])) [] eq_refl).
Defined.

Lemma text_route_stops_at_first_offender_witness :
  Routes.categorize RefParser.JSON_parse
    (body_of (VArray [tesco; VObject []; VNull]))
  = Done (Routes.invalid_request EACH_TRANSACTION)
  /\ status (answer (Routes.categorize RefParser.JSON_parse
                       (body_of (VArray [tesco; VNull; VObject []])))
                    (Resolved prose))
     = 500
  /\ exists resume,
       Routes.categorize RefParser.JSON_parse (body_of (VArray two_transactions))
       = AwaitModel {| max_tokens := 4096%N;
                       content := TextPrompt (VArray two_transactions) |}
                    resume.
Proof.
  split; [|split].
  - destruct (text_route_stops_at_first_offender RefParser.JSON_parse
                (body_of (VArray [tesco; VObject []; VNull]))
                [tesco; VObject []; VNull] eq_refl)
      as [Hstop _]; [discriminate | vm_compute; discriminate |].
    exact (Hstop [tesco] (VObject []) [VNull] eq_refl eq_refl eq_refl).
  - destruct (text_route_stops_at_first_offender RefParser.JSON_parse
                (body_of (VArray [tesco; VNull; VObject []]))
                [tesco; VNull; VObject []] eq_refl)
      as [Hstop _]; [discriminate | vm_compute; discriminate |].
    unfold answer.
    now rewrite (Hstop [tesco] VNull [VObject []] eq_refl eq_refl eq_refl).
  - destruct (text_route_stops_at_first_offender RefParser.JSON_parse
                (body_of (VArray two_transactions)) two_transactions eq_refl)
      as [_ Hcall]; [discriminate | vm_compute; discriminate |].
    destruct (Hcall eq_refl) as (resume & Hrun & _).
    exists resume. exact Hrun.
Defined.

Lemma document_route_checks_alphabet_only_witness :
  Routes.categorizePdf RefParser.JSON_parse (pdf_body_of (VString pdf_data_url))
  = Done (Routes.invalid_request "pdf must be a valid base64 encoded string")
  /\ Routes.categorizePdf RefParser.JSON_parse (pdf_body_of (VNumber (S754_zero false)))
     = Done (Routes.invalid_request "pdf (base64 string) is required")
  /\ exists resume,
       Routes.categorizePdf RefParser.JSON_parse (pdf_body_of (VString "===="))
       = AwaitModel {| max_tokens := 8192%N; content := DocumentPrompt "====" |}
                    resume.
Proof.
  split; [|split].
  - destruct (document_route_checks_alphabet_only RefParser.JSON_parse
                (pdf_body_of (VString pdf_data_url)) (VString pdf_data_url) eq_refl)
      as (_ & Hbad & _).
    apply (Hbad pdf_data_url ":"%char eq_refl); reflexivity.
  - destruct (document_route_checks_alphabet_only RefParser.JSON_parse
                (pdf_body_of (VNumber (S754_zero false))) (VNumber (S754_zero false))
                eq_refl)
      as (Hrequired & _).
    apply Hrequired. now left.
  - destruct (document_route_checks_alphabet_only RefParser.JSON_parse
                (pdf_body_of (VString "====")) (VString "====") eq_refl)
      as (_ & _ & Hgood).
    destruct (Hgood "====" eq_refl) as (resume & Hrun & _);
      [discriminate | reflexivity |].
    exists resume. exact Hrun.
Defined.

End ExtraWitnesses.
